(** * Image stitching server (server.py): a shallow embedding and its properties

    The development follows the source file top-down:
    - [PyStr]: the string operations used by [allowed_file];
    - [Np]: the array slicing used by [crop_panorama];
    - [Cv]: the OpenCV operations, as an interface ([Cv2]) plus the closed
      form that OpenCV documents for the rectangle of a point set;
    - [Sys]: the file system, the clock and the log of library calls,
      threaded through a state monad, and what the process is started
      with ([Host]): the application's root and the directories;
    - [Server]: [allowed_file], [stitch_images], [crop_panorama], [index]
      and [get_stitched_image];
    - [Model]: an executable instance of the interface for small images,
      and [Examples]: concrete images and file systems.
    The properties come after the definitions. *)

From Stdlib Require Import ZArith QArith String Ascii List Lia.
From stdpp Require Import base option list gmap strings pretty.

Local Open Scope string_scope.
Local Open Scope Z_scope.

(** ** Python strings *)

Module PyStr.

(** ['c' in s] for a one-character needle. *)
Fixpoint contains (c : ascii) (s : string) : bool :=
  match s with
  | EmptyString => false
  | String a s' => if Ascii.eqb a c then true else contains c s'
  end.

(** [s.rsplit(c, 1)]: at most one split, at the last occurrence of [c].
    The result has two items when [c] occurs in [s] and one otherwise. *)
Fixpoint rsplit1 (c : ascii) (s : string) : list string :=
  match s with
  | EmptyString => [EmptyString]
  | String a s' =>
      match rsplit1 c s' with
      | [before; after] => [String a before; after]
      | _ => if Ascii.eqb a c then [EmptyString; s'] else [String a s']
      end
  end.

(** [str.lower] on one character: the letters A to Z move to a to z, every
    other byte stays.  (No character outside ASCII lowers to one of the
    letters of the extensions below.) *)
Definition lower_ascii (a : ascii) : ascii :=
  let n := nat_of_ascii a in
  if ((65 <=? n) && (n <=? 90))%nat then ascii_of_nat (n + 32) else a.

Fixpoint lower (s : string) : string :=
  match s with
  | EmptyString => EmptyString
  | String a s' => String (lower_ascii a) (lower s')
  end.

(** Case-insensitive spelling, stated without [lower]: the capital of each
    letter that occurs in an allowed extension, by table. *)
Definition capital (a : ascii) : ascii :=
  match a with
  | "b" => "B" | "e" => "E" | "g" => "G" | "j" => "J"
  | "m" => "M" | "n" => "N" | "p" => "P"
  | _ => a
  end%char.

(** [s] spells [word], each letter of [word] as it stands or capitalised. *)
Fixpoint spelled (word s : string) : bool :=
  match word, s with
  | EmptyString, EmptyString => true
  | String b word', String a s' =>
      (Ascii.eqb a b || Ascii.eqb a (capital b)) && spelled word' s'
  | _, _ => false
  end.

End PyStr.

(** ** numpy arrays and their slices *)

Module Np.

(** A BGR pixel of a [uint8] array of shape (rows, cols, 3). *)
Definition Pixel : Type := Z * Z * Z.

(** A colour image, row-major: [img[y][x]] is row [y], column [x]. *)
Abbreviation Image := (list (list Pixel)).

(** A single-channel [uint8] array. *)
Abbreviation Gray := (list (list Z)).

Definition height {A} (a : list (list A)) : Z := Z.of_nat (length a).

Definition width {A} (a : list (list A)) : Z :=
  match a with
  | [] => 0
  | row :: _ => Z.of_nat (length row)
  end.

(** Every row has the array's width. *)
Definition rectangular {A} (a : list (list A)) : Prop :=
  Forall (fun row => Z.of_nat (length row) = width a) a.

(** No channel of any pixel is zero. *)
Definition fully_nonzero (img : Image) : Prop :=
  Forall (Forall (fun p : Pixel => 0 < p.1.1 ∧ 0 < p.1.2 ∧ 0 < p.2)) img.

(** Python's normalisation of one slice bound against a length [n]:
    a negative bound counts from the end, and both ends are clamped. *)
Definition clamp (n i : Z) : Z :=
  if i <? 0 then Z.max (i + n) 0 else Z.min i n.

(** [l[lo:hi]]. Never raises; an empty range gives the empty list. *)
Definition slice {A} (lo hi : Z) (l : list A) : list A :=
  let n := Z.of_nat (length l) in
  let lo' := clamp n lo in
  let hi' := clamp n hi in
  take (Z.to_nat (hi' - lo')) (drop (Z.to_nat lo') l).

(** [a[r0:r1, c0:c1]]: the row range, then the column range of each row. *)
Definition slice2 {A} (r0 r1 c0 c1 : Z) (a : list (list A)) : list (list A) :=
  slice c0 c1 <$> slice r0 r1 a.

(** [a[y][x]] for indices counted from the origin, [None] outside. *)
Definition at_ {A} (a : list (list A)) (x y : Z) : option A :=
  if (x <? 0) || (y <? 0) then None
  else a !! Z.to_nat y ≫= fun row => row !! Z.to_nat x.

(** [np.ones((r, c), np.uint8)]. *)
Definition ones (r c : nat) : Gray := replicate r (replicate c 1).

End Np.

(** ** OpenCV *)

Module Cv.
Import Np.

Definition Point : Type := Z * Z.           (* (x, y) *)
Abbreviation Contour := (list Point).
Definition Rect : Type := Z * Z * Z * Z.    (* (x, y, w, h) *)

(** The flags the server passes. *)
Definition COLOR_BGR2GRAY : Z := 6.
Definition THRESH_BINARY : Z := 0.
Definition THRESH_OTSU : Z := 8.
Definition MORPH_CLOSE : Z := 3.
Definition RETR_EXTERNAL : Z := 0.
Definition CHAIN_APPROX_SIMPLE : Z := 2.
Definition Stitcher_PANORAMA : Z := 0.
Definition Stitcher_OK : Z := 0.

(** The operations of the library that the server calls and that are not
    given by a closed form.  Each is a function of its arguments: the codecs
    and the stitcher keep no state between calls.
    - [imdecode] is the decoding half of [cv2.imread] ([None] when the
      bytes are not an image);
    - [imencode] is the encoding half of [cv2.imwrite], chosen by the
      extension of the path;
    - [stitch] is [Stitcher.stitch]: a status and a panorama, the panorama
      meaningful only under status [Stitcher_OK] (the server reads it in
      no other case). The list is the Python list handed over, whose items
      may be [None] as far as the types go;
    - [contourArea] is a float in the library, an exact rational here. *)
Class Cv2 := {
  imdecode : list Byte.byte -> option Image;
  imencode : string -> Image -> list Byte.byte;
  stitch : Z -> list (option Image) -> Z * Image;
  cvtColor : Image -> Z -> Gray;
  threshold : Gray -> Z -> Z -> Z -> Z * Gray;
  morphologyEx : Gray -> Z -> Gray -> Gray;
  findContours : Gray -> Z -> Z -> list Contour * list (Z * Z * Z * Z);
  contourArea : Contour -> Q
}.

(** [cv2.boundingRect] of a point set: the minimal up-right rectangle that
    covers the points as pixels, so the extents are inclusive; the empty
    set gives the empty rectangle at the origin. *)
Definition boundingRect (c : Contour) : Rect :=
  match c with
  | [] => (0, 0, 0, 0)
  | (x0, y0) :: ps =>
      let xmin := foldr (fun p m => Z.min p.1 m) x0 ps in
      let ymin := foldr (fun p m => Z.min p.2 m) y0 ps in
      let xmax := foldr (fun p m => Z.max p.1 m) x0 ps in
      let ymax := foldr (fun p m => Z.max p.2 m) y0 ps in
      (xmin, ymin, xmax - xmin + 1, ymax - ymin + 1)
  end.

(** What the library documents of a contour found in an array [a]: it has
    at least one point, and every point is a pixel position of [a]. *)
Definition within {A} (a : list (list A)) (c : Contour) : Prop :=
  c ≠ [] ∧ Forall (fun p : Point => 0 <= p.1 < width a ∧ 0 <= p.2 < height a) c.

(** Every point of the contour is a non-zero pixel of the mask. *)
Definition on_foreground (mask : Gray) (c : Contour) : Prop :=
  Forall (fun p : Point => ∃ v, at_ mask p.1 p.2 = Some v ∧ v ≠ 0) c.

(** The contour has a point on each of the four sides of [a]. *)
Definition spans {A} (a : list (list A)) (c : Contour) : Prop :=
  (∃ p, p ∈ c ∧ p.1 = 0) ∧ (∃ p, p ∈ c ∧ p.2 = 0) ∧
  (∃ p, p ∈ c ∧ p.1 = width a - 1) ∧ (∃ p, p ∈ c ∧ p.2 = height a - 1).

(** [p] lies in the rectangle [r]. *)
Definition inside (r : Rect) (p : Point) : Prop :=
  let '(x, y, w, h) := r in x <= p.1 < x + w ∧ y <= p.2 < y + h.

(** [r] is the axis-aligned bounding rectangle of the points of [c]: it
    covers every point, and each of its four sides carries a point. *)
Definition bounding_rectangle_of (c : Contour) (r : Rect) : Prop :=
  let '(x, y, w, h) := r in
  Forall (inside r) c ∧
  (∃ p, p ∈ c ∧ p.1 = x) ∧ (∃ p, p ∈ c ∧ p.2 = y) ∧
  (∃ p, p ∈ c ∧ p.1 = x + w - 1) ∧ (∃ p, p ∈ c ∧ p.2 = y + h - 1).

(** *** What the library documents of the operations on masks

    Two arrays have the same shape. *)
Definition same_shape {A B} (a : list (list A)) (b : list (list B)) : Prop :=
  Forall2 (fun ra rb => length ra = length rb) a b.

(** [THRESH_BINARY]: [maxval] where the source exceeds the threshold, zero
    elsewhere. *)
Definition binary (t maxval : Z) (g : Gray) : Gray :=
  (fun row : list Z => (fun v => if t <? v then maxval else 0) <$> row) <$> g.

(** A closing is extensive: it keeps the shape and clears no pixel. *)
Definition extensive (mask closed : Gray) : Prop :=
  Forall2 (Forall2 (fun u v : Z => u ≠ 0 -> v ≠ 0)) mask closed.

(** [p] is a non-zero pixel of the mask. *)
Definition foreground (mask : Gray) (p : Point) : Prop :=
  ∃ v, at_ mask p.1 p.2 = Some v ∧ v ≠ 0.

(** Neighbours in the 8-neighbourhood (or the same pixel). *)
Definition adjacent (p q : Point) : Prop :=
  Z.abs (p.1 - q.1) <= 1 ∧ Z.abs (p.2 - q.2) <= 1.

(** Two pixels of one 8-connected region of the foreground. *)
Definition connected (mask : Gray) : relation Point :=
  rtc (fun p q => foreground mask p ∧ foreground mask q ∧ adjacent p q).

(** [RETR_EXTERNAL]: the contours are the outer borders of the outermost
    regions, so every foreground pixel lies in the rectangle of one of
    them, and two of them never belong to one connected region. *)
Definition encloses_foreground (mask : Gray) (cs : list Contour) : Prop :=
  ∀ p, foreground mask p -> ∃ c, c ∈ cs ∧ inside (boundingRect c) p.

Definition one_per_region (mask : Gray) (cs : list Contour) : Prop :=
  ∀ (i j : nat) c1 c2 p q,
    cs !! i = Some c1 -> cs !! j = Some c2 -> i ≠ j ->
    p ∈ c1 -> q ∈ c2 -> ¬ connected mask p q.

End Cv.

(** ** The process state: files, clock, and the calls made to OpenCV *)

Module Sys.
Import Np Cv.

(** A call to one of the library's effectful entry points. *)
Inductive Call :=
| CallImread (path : string)
| CallStitch (images : list (option Image))
| CallImwrite (path : string) (img : Image).

(** The file system is a flat map from the paths of the regular files, as
    the process names them from its working directory, to their contents;
    [now] is [time.time()] in whole seconds; [calls] is the log of library
    calls, most recent first. *)
Record World := mkWorld {
  files : gmap string (list Byte.byte);
  now : Z;
  calls : list Call
}.

Definition IO (A : Type) : Type := World -> A * World.

Definition ret {A} (a : A) : IO A := fun w => (a, w).

Definition bind {A B} (m : IO A) (k : A -> IO B) : IO B :=
  fun w => let '(a, w') := m w in k a w'.

Declare Scope io_scope.
Delimit Scope io_scope with io.
Bind Scope io_scope with IO.
Notation "x <- m ;; k" := (bind m (fun x => k))
  (at level 100, m at next level, right associativity) : io_scope.
Notation "m ;; k" := (bind m (fun _ => k))
  (at level 100, right associativity) : io_scope.
Local Open Scope io_scope.

(** The world after [cs] more calls (most recent first). *)
Definition logged (cs : list Call) (w : World) : World :=
  mkWorld (files w) (now w) (cs ++ calls w).

Definition log (c : Call) : IO unit := fun w => (tt, logged [c] w).

Definition read_file (path : string) : IO (option (list Byte.byte)) :=
  fun w => (files w !! path, w).

Definition write_file (path : string) (data : list Byte.byte) : IO unit :=
  fun w => (tt, mkWorld (<[path := data]> (files w)) (now w) (calls w)).

(** [int(time.time())]. *)
Definition time_time : IO Z := fun w => (now w, w).

(** [os.path.join] of two components (POSIX). *)
Definition path_join (a b : string) : string :=
  match b with
  | String "/" _ => b
  | _ =>
      match a with
      | EmptyString => b
      | _ => if String.eqb (substring (String.length a - 1) 1 a) "/"
             then a +:+ b else a +:+ "/" +:+ b
      end
  end.

(** The application's root path, against which Flask resolves a relative
    folder: the working directory, or some other directory, given by its
    regular files under the paths they have from there.  The handlers write
    from the working directory only, so the files seen from another root
    stay as they are. *)
Inductive AppRoot :=
| AtCwd
| Elsewhere (fs : gmap string (list Byte.byte)).

(** What the process is started with: where the application's root lies,
    and which paths (from the working directory) are directories.  The
    handlers make no directory; the two folders are made once, at import. *)
Class Host := {
  app_root : AppRoot;
  is_directory : string -> bool
}.

(** [os.path.exists]: true of a regular file and of a directory. *)
Definition path_exists `{Host} (path : string) : IO bool :=
  fun w => (bool_decide (is_Some (files w !! path)) || is_directory path, w).

Definition is_stitch (c : Call) : bool :=
  match c with CallStitch _ => true | _ => false end.

Definition is_imwrite (c : Call) : bool :=
  match c with CallImwrite _ _ => true | _ => false end.

Section WithCv2.
Context `{Cv2}.

(** [cv2.imread(path)]: [None] for a missing or undecodable file. *)
Definition imread (path : string) : IO (option Image) :=
  log (CallImread path);;
  data <- read_file path;;
  ret (data ≫= imdecode).

(** [cv2.imwrite(path, img)]. *)
Definition imwrite (path : string) (img : Image) : IO unit :=
  log (CallImwrite path img);;
  write_file path (imencode path img).

(** [cv2.Stitcher_create(mode).stitch(images)]. *)
Definition stitcher_stitch (mode : Z) (images : list (option Image))
  : IO (Z * Image) :=
  log (CallStitch images);;
  ret (stitch mode images).

(** What [imread] gives for [path] on the file system [fs]. *)
Definition decoded (fs : gmap string (list Byte.byte)) (path : string)
  : option Image :=
  fs !! path ≫= imdecode.

(** The buffers of the paths that decode, in the order of the paths. *)
Definition loaded (fs : gmap string (list Byte.byte)) (paths : list string)
  : list (option Image) :=
  Some <$> omap (decoded fs) paths.

(** The calls that loading [paths] logs, most recent first: one read
    for a path that does not decode, two for one that does. *)
Fixpoint read_log (fs : gmap string (list Byte.byte)) (paths : list string)
  : list Call :=
  match paths with
  | [] => []
  | path :: rest =>
      read_log fs rest ++
      match decoded fs path with
      | Some _ => [CallImread path; CallImread path]
      | None => [CallImread path]
      end
  end.

End WithCv2.

End Sys.

(** ** server.py *)

Module Server.
Import PyStr Np Cv Sys.
Local Open Scope io_scope.

Definition UPLOAD_FOLDER : string := "uploads".
Definition OUTPUT_FOLDER : string := "outputs".

Definition ALLOWED_EXTENSIONS : gset string := {["png"; "jpg"; "jpeg"; "bmp"]}.

(** [allowed_file(filename)].  The [and] guards the index [1]: it is only
    evaluated when the name has a dot, where [rsplit] gives two items
    (lemma [rsplit1_split]); the [None] branch stands for the [IndexError]
    that the guard excludes. *)
Definition allowed_file (filename : string) : bool :=
  contains "." filename &&
  match rsplit1 "." filename !! 1%nat with
  | Some ext => bool_decide (lower ext ∈ ALLOWED_EXTENSIONS)
  | None => false
  end.

(** [max(first :: rest, key=key)]: an item replaces the running maximum only
    when its key is strictly greater, so of several maximal items the first
    one is returned. *)
Definition py_max {A} (key : A -> Q) (first : A) (rest : list A) : A :=
  fold_left (fun best c => if Qle_bool (key c) (key best) then best else c)
            rest first.

(** What a Flask view returns. *)
Inductive Response :=
| Template (error stitched_url : option string)   (* the page, status 200 *)
| SendFile (data : list Byte.byte) (mimetype : string)
| Text (body : string) (status : Z)
| NotFound                                        (* werkzeug's page, status 404 *)
| InternalServerError.                            (* an uncaught exception *)

(** One uploaded part of the form. *)
Record FileStorage := mkFile { filename : string; content : list Byte.byte }.

(** A request to [/]: [images] is [None] when the form has no such field. *)
Inductive Request :=
| GET
| POST (images : option (list FileStorage)).

(** [werkzeug.security.safe_join] for one name without a slash, which is
    what the route hands over: the parent directory is refused. *)
Definition safe_join (directory name : string) : option string :=
  if String.eqb name ".." || String.prefix "../" name || String.prefix "/" name
  then None
  else Some (path_join directory name).

(** [flask.send_from_directory]: the joined path is taken from the
    application's root, not from the working directory; the answer is the
    file's bytes under the given MIME type, and [NotFound] when the name is
    refused or the path is no regular file there. *)
Definition send_from_directory `{Host} (directory name mimetype : string)
  : IO Response :=
  match safe_join directory name with
  | None => ret NotFound
  | Some path =>
      data <- match app_root with
              | AtCwd => read_file path
              | Elsewhere fs => ret (fs !! path)
              end;;
      match data with
      | Some bytes => ret (SendFile bytes mimetype)
      | None => ret NotFound
      end
  end.

(** Python truthiness of [error]. *)
Definition truthy (error : option string) : bool :=
  match error with
  | Some (String _ _) => true
  | _ => false
  end.

Section WithLibraries.
Context `{Cv2} `{Host}.
(** [werkzeug.utils.secure_filename]. *)
Variable secure_filename : string -> string.

Definition crop_panorama (panorama : Image) : Image :=
  let gray := cvtColor panorama COLOR_BGR2GRAY in
  let '(_, thresh) := threshold gray 0 255 (THRESH_BINARY + THRESH_OTSU) in
  let kernel := ones 5 5 in
  let closed := morphologyEx thresh MORPH_CLOSE kernel in
  let '(contours, _) := findContours closed RETR_EXTERNAL CHAIN_APPROX_SIMPLE in
  match contours with
  | [] => panorama
  | c :: cs =>
      let largest_cnt := py_max contourArea c cs in
      let '(x, y, w, h) := boundingRect largest_cnt in
      let cropped := slice2 y (y + h) x (x + w) panorama in
      cropped
  end.

(** The mask and the contours that [crop_panorama] computes on the way. *)
Definition closed_mask (panorama : Image) : Gray :=
  morphologyEx
    (threshold (cvtColor panorama COLOR_BGR2GRAY) 0 255 (THRESH_BINARY + THRESH_OTSU)).2
    MORPH_CLOSE (ones 5 5).

Definition contours_of (panorama : Image) : list Contour :=
  (findContours (closed_mask panorama) RETR_EXTERNAL CHAIN_APPROX_SIMPLE).1.

(** The library behaves on [panorama] as documented: the grey image has
    the shape of the colour image, the threshold is binary, the closing is
    extensive, and the outer contours are made of pixel positions, enclose
    the foreground and are one per connected region. *)
Record as_documented (panorama : Image) : Prop := {
  gray_shape : same_shape panorama (cvtColor panorama COLOR_BGR2GRAY);
  threshold_binary :
    let gray := cvtColor panorama COLOR_BGR2GRAY in
    let r := threshold gray 0 255 (THRESH_BINARY + THRESH_OTSU) in
    r.2 = binary r.1 255 gray;
  closing_extensive :
    extensive
      (threshold (cvtColor panorama COLOR_BGR2GRAY) 0 255 (THRESH_BINARY + THRESH_OTSU)).2
      (closed_mask panorama);
  contours_within : Forall (within panorama) (contours_of panorama);
  contours_enclose : encloses_foreground (closed_mask panorama) (contours_of panorama);
  contours_apart : one_per_region (closed_mask panorama) (contours_of panorama)
}.

(** Every grey value of the image exceeds the threshold that
    [cv2.threshold] returns for it. *)
Definition above_threshold (panorama : Image) : Prop :=
  let gray := cvtColor panorama COLOR_BGR2GRAY in
  let t := (threshold gray 0 255 (THRESH_BINARY + THRESH_OTSU)).1 in
  Forall (Forall (fun v => t < v)) gray.

(** [[cv2.imread(path) for path in image_paths if cv2.imread(path) is not None]]:
    the condition reads the file, and the item reads it again. *)
Fixpoint read_images (image_paths : list string) : IO (list (option Image)) :=
  match image_paths with
  | [] => ret []
  | path :: rest =>
      probe <- imread path;;
      match probe with
      | Some _ =>
          item <- imread path;;
          items <- read_images rest;;
          ret (item :: items)
      | None => read_images rest
      end
  end.

Definition stitch_images (image_paths : list string)
  : IO (option Image * option string) :=
  images <- read_images image_paths;;
  if Z.of_nat (length images) <? 2
  then ret (None, Some "Need at least two images to stitch")
  else
    r <- stitcher_stitch Stitcher_PANORAMA images;;
    let '(status, stitched) := r in
    if negb (status =? Stitcher_OK)
    then ret (None, Some ("Stitching failed! Error code: " +:+ pretty status))
    else ret (Some (crop_panorama stitched), None).

(** The loop of [index] over the uploaded parts; a part counts when its
    name is not empty and passes [allowed_file]. [file.save] is taken to
    succeed: it stores the content under the path. *)
Fixpoint save_uploads (parts : list FileStorage) (image_paths : list string)
  : IO (list string) :=
  match parts with
  | [] => ret image_paths
  | file :: rest =>
      if negb (String.eqb (filename file) "") && allowed_file (filename file)
      then
        let name := secure_filename (filename file) in
        let filepath := path_join UPLOAD_FOLDER name in
        write_file filepath (content file);;
        save_uploads rest (image_paths ++ [filepath])
      else save_uploads rest image_paths
  end.

Definition index (request : Request) : IO Response :=
  match request with
  | POST None => ret (Template (Some "No images uploaded") None)
  | POST (Some parts) =>
      image_paths <- save_uploads parts [];;
      if Z.of_nat (length image_paths) <? 2
      then ret (Template (Some "At least two images required") None)
      else
        r <- stitch_images image_paths;;
        let '(stitched_image, error) := r in
        if truthy error
        then ret (Template error None)
        else
          t <- time_time;;
          let unique_filename := "stitched_" +:+ pretty t +:+ ".jpg" in
          let output_path := path_join OUTPUT_FOLDER unique_filename in
          match stitched_image with
          | None => ret InternalServerError
          | Some img =>
              imwrite output_path img;;
              let stitched_url := "/stitched_image/" +:+ unique_filename in
              ret (Template None (Some stitched_url))
          end
  | GET => ret (Template None None)
  end.

Definition get_stitched_image (name : string) : IO Response :=
  let output_path := path_join OUTPUT_FOLDER name in
  found <- path_exists output_path;;
  if found
  then send_from_directory OUTPUT_FOLDER name "image/jpeg"
  else ret (Text "No stitched image available" 404).

End WithLibraries.

End Server.

(** ** An executable instance of the library interface

    The image operations follow the OpenCV documentation for 8-bit images:
    the fixed-point luma conversion, Otsu's threshold over the 256-bin
    histogram (in exact arithmetic, where the library uses doubles), the
    closing as a dilation followed by an erosion that both ignore pixels
    outside the image, and the border following of Suzuki and Abe for the
    outer contours.  Each operation is the one the server asks for with its
    flags; the flag arguments are not read.  The codecs and the stitcher
    are black boxes to the server; a raw pixel format and a side-by-side
    paste stand in for them. *)

Module Model.
Import Np Cv.

(** *** cvtColor(BGR2GRAY): Y = 0.299 R + 0.587 G + 0.114 B in 15-bit
    fixed point, rounded. *)
Definition bgr2gray (p : Pixel) : Z :=
  let '(b, g, r) := p in
  Z.shiftr (3735 * b + 19235 * g + 9798 * r + 16384) 15.

Definition cvtColor (img : Image) (code : Z) : Gray :=
  (fun row : list Pixel => bgr2gray <$> row) <$> img.

(** *** threshold(THRESH_BINARY [+ THRESH_OTSU]) *)

(** Number of pixels with value [v]. *)
Definition count (g : Gray) (v : Z) : Z :=
  Z.of_nat (length (filter (fun x => x = v) (concat g))).

(** One step of the search over the candidate thresholds: [n1] and [s1]
    are the count and the sum of the pixels at or below the candidate, and
    the last pair is the best (sigma, threshold) so far.  A candidate that
    leaves one class empty is skipped; a later candidate wins only when
    strictly better. *)
Definition otsu_step (g : Gray) (total sum : Z)
    (acc : Z * Z * (Q * Z)) (i : Z) : Z * Z * (Q * Z) :=
  let '(n1, s1, (max_sigma, max_val)) := acc in
  let n1 := n1 + count g i in
  let s1 := s1 + i * count g i in
  let n2 := total - n1 in
  if (n1 =? 0) || (n2 =? 0) then (n1, s1, (max_sigma, max_val))
  else
    let d := s1 * n2 - (sum - s1) * n1 in
    let sigma := Qmake (d * d) (Z.to_pos (total * total * n1 * n2)) in
    if Qle_bool sigma max_sigma then (n1, s1, (max_sigma, max_val))
    else (n1, s1, (sigma, i)).

Definition otsu (g : Gray) : Z :=
  let px := concat g in
  let total := Z.of_nat (length px) in
  let sum := foldr Z.add 0 px in
  let levels := Z.of_nat <$> seq 0 256 in
  (fold_left (otsu_step g total sum) levels (0, 0, (0%Q, 0))).2.2.

Definition threshold (g : Gray) (thresh maxval type : Z) : Z * Gray :=
  let t := if Z.testbit type 3 then otsu g else thresh in
  (t, (fun row : list Z => (fun v => if t <? v then maxval else 0) <$> row) <$> g).

(** *** morphologyEx(MORPH_CLOSE) *)

(** The offsets of the structuring element from its anchor, the centre. *)
Definition offsets (kernel : Gray) : list (Z * Z) :=
  let ax := width kernel / 2 in
  let ay := height kernel / 2 in
  concat (imap (fun j row =>
    omap id (imap (fun i k =>
      if k =? 0 then None else Some (Z.of_nat i - ax, Z.of_nat j - ay)) row))
    kernel).

(** The values under the structuring element placed at (x, y), the pixels
    outside the image left out. *)
Definition window (g : Gray) (offs : list (Z * Z)) (x y : Z) : list Z :=
  omap (fun o => at_ g (x + o.1) (y + o.2)) offs.

Definition dilate (g : Gray) (kernel : Gray) : Gray :=
  imap (fun j row => imap (fun i _ =>
    foldr Z.max 0 (window g (offsets kernel) (Z.of_nat i) (Z.of_nat j))) row) g.

Definition erode (g : Gray) (kernel : Gray) : Gray :=
  imap (fun j row => imap (fun i _ =>
    foldr Z.min 255 (window g (offsets kernel) (Z.of_nat i) (Z.of_nat j))) row) g.

Definition morphologyEx (g : Gray) (op : Z) (kernel : Gray) : Gray :=
  erode (dilate g kernel) kernel.

(** *** findContours(RETR_EXTERNAL, CHAIN_APPROX_SIMPLE)

    The scan keeps a label per pixel: 0 background, 1 foreground not yet
    on a followed border, 2 on a followed border, -2 on a followed border
    with background to its right. *)
Abbreviation Labels := (gmap (Z * Z) Z).

Definition label (L : Labels) (p : Point) : Z := default 0 (L !! p).

Definition init_labels (g : Gray) : Labels :=
  list_to_map (concat (imap (fun j row =>
    omap id (imap (fun i v =>
      if v =? 0 then None else Some ((Z.of_nat i, Z.of_nat j), 1)) row)) g)).

(** The eight neighbours, numbered from east against the clock (the image's
    y axis points down): E, NE, N, NW, W, SW, S, SE. *)
Definition delta (s : Z) : Z * Z :=
  match s mod 8 with
  | 0 => (1, 0) | 1 => (1, -1) | 2 => (0, -1) | 3 => (-1, -1)
  | 4 => (-1, 0) | 5 => (-1, 1) | 6 => (0, 1) | _ => (1, 1)
  end.

Definition move (p : Point) (s : Z) : Point :=
  (p.1 + (delta s).1, p.2 + (delta s).2).

(** The first direction in [dirs] whose neighbour of [p] is not background. *)
Definition first_set (L : Labels) (p : Point) (dirs : list Z) : option Z :=
  snd <$> list_find (fun s => label L (move p s) ≠ 0) dirs.

(** Follow the border from [i3], having arrived along direction [s]
    reversed; [i0] is the start and [i1] its first successor. A point is
    kept where the direction changes. *)
Fixpoint follow (fuel : nat) (L : Labels) (i0 i1 i3 : Point) (s prev_s : Z)
    (acc : list Point) : list Point * Labels :=
  match fuel with
  | O => (reverse acc, L)
  | S fuel' =>
      match first_set L i3 ((fun k => s + k) <$> [1; 2; 3; 4; 5; 6; 7; 8]) with
      | None => (reverse acc, L)
      | Some s_raw =>
          let s_new := s_raw mod 8 in
          let i4 := move i3 s_new in
          let L' :=
            if (1 <=? s_new) && (s_new <=? s) then <[i3 := -2]> L
            else if label L i3 =? 1 then <[i3 := 2]> L else L in
          let acc' := if s_new =? prev_s then acc else i3 :: acc in
          if bool_decide (i4 = i0 ∧ i3 = i1) then (reverse acc', L')
          else follow fuel' L' i0 i1 i4 ((s_new + 4) mod 8) s_new acc'
      end
  end.

(** The outer border that starts at [i0]. *)
Definition fetch_contour (fuel : nat) (L : Labels) (i0 : Point)
    : list Point * Labels :=
  match first_set L i0 [3; 2; 1; 0; 7; 6; 5] with
  | None => ([i0], <[i0 := -2]> L)
  | Some s => follow fuel L i0 (move i0 s) i0 s (Z.lxor s 4) []
  end.

(** One pixel of the raster scan. The state is the labels, the contours
    found so far (latest first), the label last read in this row and the
    last border pixel met in this row. A border starts at an unlabelled
    foreground pixel with background on its left, unless the last border
    pixel met has a positive label (the scan is then inside a contour). *)
Definition scan_pixel (fuel : nat) (y : Z)
    (st : Labels * list Contour * Z * option Point) (x : Z)
    : Labels * list Contour * Z * option Point :=
  let '(L, found, prev, lnbd) := st in
  let p := label L (x, y) in
  let '(L, found) :=
    if (prev =? 0) && (p =? 1) && negb (0 <? from_option (label L) 0 lnbd)
    then let '(c, L') := fetch_contour fuel L (x, y) in (L', c :: found)
    else (L, found) in
  let p := label L (x, y) in
  (L, found, p, if (p =? 0) || (p =? 1) then lnbd else Some (x, y)).

Definition scan_row (fuel : nat) (w : nat)
    (st : Labels * list Contour) (y : Z) : Labels * list Contour :=
  let '(L, found) := st in
  (fold_left (scan_pixel fuel y) (Z.of_nat <$> seq 0 w) (L, found, 0, None)).1.1.

(** The contours come out latest first, as the library links them. *)
Definition findContours (g : Gray) (mode method : Z)
    : list Contour * list (Z * Z * Z * Z) :=
  let h := length g in
  let w := Z.to_nat (width g) in
  let fuel := (8 * h * w + 8)%nat in
  let cs := (fold_left (scan_row fuel w) (Z.of_nat <$> seq 0 h)
                       (init_labels g, [])).2 in
  let n := Z.of_nat (length cs) in
  (cs, imap (fun i _ =>
         let i := Z.of_nat i in
         (if i + 1 <? n then i + 1 else -1, i - 1, -1, -1)) cs).

(** *** contourArea: half the absolute value of the shoelace sum. *)
Fixpoint shoelace (prev : Point) (c : Contour) : Z :=
  match c with
  | [] => 0
  | p :: c' => prev.1 * p.2 - prev.2 * p.1 + shoelace p c'
  end.

Definition contourArea (c : Contour) : Q :=
  match last c with
  | None => 0%Q
  | Some p => Qmake (Z.abs (shoelace p c)) 2
  end.

(** *** Stand-ins for the codecs and the stitcher

    A raw format: one byte for the number of columns, then the rows, three
    bytes a pixel.  Anything else does not decode. *)
Fixpoint pixels_of (bs : list Z) : list Pixel :=
  match bs with
  | b :: g :: r :: bs' => (b, g, r) :: pixels_of bs'
  | _ => []
  end.

Fixpoint rows_of (fuel w : nat) (px : list Pixel) : Image :=
  match fuel, px with
  | S fuel', _ :: _ => take w px :: rows_of fuel' w (drop w px)
  | _, _ => []
  end.

Definition imdecode (data : list Byte.byte) : option Image :=
  match data with
  | [] => None
  | b :: rest =>
      let w := N.to_nat (Byte.to_N b) in
      let n := length rest in
      if (0 <? w)%nat && (0 <? n)%nat && (n mod (3 * w) =? 0)%nat
      then Some (rows_of n w (pixels_of ((fun c => Z.of_N (Byte.to_N c)) <$> rest)))
      else None
  end.

Definition byte_of (v : Z) : Byte.byte :=
  default Byte.x00 (Byte.of_N (Z.to_N v)).

Definition imencode (path : string) (img : Image) : list Byte.byte :=
  byte_of (width img)
    :: concat ((fun p : Pixel => [byte_of p.1.1; byte_of p.1.2; byte_of p.2]) <$> concat img).

(** Images of one height are pasted side by side; anything else is
    reported as status 1 ("need more images"). *)
Fixpoint paste (imgs : list Image) : Image :=
  match imgs with
  | [] => []
  | [img] => img
  | img :: rest => zip_with app img (paste rest)
  end.

Definition stitch (mode : Z) (images : list (option Image)) : Z * Image :=
  match mapM id images with
  | Some (first :: second :: rest) =>
      if forallb (fun img : Image => height img =? height first) (second :: rest)
      then (Stitcher_OK, paste (first :: second :: rest))
      else (1, [])
  | _ => (1, [])
  end.

#[global] Instance cv2 : Cv2 := {|
  Cv.imdecode := imdecode;
  Cv.imencode := imencode;
  Cv.stitch := stitch;
  Cv.cvtColor := cvtColor;
  Cv.threshold := threshold;
  Cv.morphologyEx := morphologyEx;
  Cv.findContours := findContours;
  Cv.contourArea := contourArea
|}.

(** [secure_filename]: keeps letters, digits, dot, dash and underscore,
    turns a blank into an underscore and drops the rest. *)
Definition safe_char (a : ascii) : bool :=
  let n := nat_of_ascii a in
  ((48 <=? n) && (n <=? 57) || (65 <=? n) && (n <=? 90) || (97 <=? n) && (n <=? 122)
   || (n =? 45) || (n =? 46) || (n =? 95))%nat.

Fixpoint secure_filename (s : string) : string :=
  match s with
  | EmptyString => EmptyString
  | String a s' =>
      if safe_char a then String a (secure_filename s')
      else if Ascii.eqb a " " then String "_" (secure_filename s')
      else secure_filename s'
  end.

End Model.

(** ** Concrete images and file systems *)

Module Examples.
Import Np Cv Sys Server.

Definition grey (v : Z) : Pixel := (v, v, v).

Definition uniform (h w : nat) (v : Z) : Image :=
  replicate h (replicate w (grey v)).

(** An image of two grey levels, 200 where [bright x y] and 10 elsewhere. *)
Definition canvas (h w : nat) (bright : Z -> Z -> bool) : Image :=
  (fun y : nat =>
     (fun x : nat => grey (if bright (Z.of_nat x) (Z.of_nat y) then 200 else 10))
       <$> seq 0 w) <$> seq 0 h.

(** Three dark columns, then two bright ones; no pixel is zero. *)
Definition dark_bright : Image := canvas 2 5 (fun x _ => 3 <=? x).

(** A 3x3 bright block in the top left corner and a 2x2 one in the bottom
    right corner of a dark 9x12 image. *)
Definition two_blobs : Image :=
  canvas 9 12 (fun x y => (x <? 3) && (y <? 3) || (10 <=? x) && (7 <=? y)).

Definition black : Image := uniform 3 4 0.
Definition plain : Image := uniform 3 4 7.

Definition raw (img : Image) : list Byte.byte := Model.imencode "" img.

(** One file that decodes and one that does not. *)
Definition one_good : World :=
  mkWorld {[ "uploads/a.png" := raw (uniform 2 2 9);
             "uploads/b.png" := [Byte.x00] ]} 0 [].

(** Two files that decode, of different heights: the stand-in stitcher
    reports status 1 for them. *)
Definition mismatched : World :=
  mkWorld {[ "uploads/a.png" := raw (uniform 2 2 9);
             "uploads/b.png" := raw (uniform 3 2 9) ]} 0 [].

(** One stored artifact. *)
Definition served : World :=
  mkWorld {[ "outputs/stitched_5.jpg" := raw plain ]} 5 [].

(** The server started from its own directory, with the two folders in it. *)
Definition at_cwd : Host :=
  {| app_root := AtCwd;
     is_directory := fun path =>
       bool_decide (path ∈ ["uploads"; "uploads/."; "outputs"; "outputs/."; "outputs/.."]) |}.

(** The server started from another directory: the folders are made there,
    and the application's root has no [outputs] folder of its own. *)
Definition started_elsewhere : Host :=
  {| app_root := Elsewhere ∅; is_directory := is_directory (Host := at_cwd) |}.

(** Twelve columns of grey 10, three of grey 100, three of grey 200, in two
    rows; no pixel is zero. *)
Definition three_levels : Image :=
  replicate 2 (grey <$> (replicate 12 10 ++ replicate 3 100 ++ replicate 3 200)%list).

End Examples.

(** ** What [index] saves and what it names

    The expressions of [index] and of its upload loop, named so that the
    properties of the request handler can refer to them. *)

Module Uploads.
Import PyStr Np Cv Sys Server.

(** The condition of the upload loop: [file and allowed_file(file.filename)]. *)
Definition accepted (file : FileStorage) : bool :=
  negb (String.eqb (filename file) "") && allowed_file (filename file).

(** [f"stitched_{int(time.time())}.jpg"] and the path and address made from it. *)
Definition artifact_name (t : Z) : string := "stitched_" +:+ pretty t +:+ ".jpg".
Definition artifact_path (t : Z) : string := path_join OUTPUT_FOLDER (artifact_name t).
Definition artifact_url (t : Z) : string := "/stitched_image/" +:+ artifact_name t.

Section WithSecureFilename.
Variable secure_filename : string -> string.

(** [os.path.join(UPLOAD_FOLDER, secure_filename(file.filename))]. *)
Definition upload_path (file : FileStorage) : string :=
  path_join UPLOAD_FOLDER (secure_filename (filename file)).

(** The paths the loop collects, in upload order. *)
Definition saved_paths (parts : list FileStorage) : list string :=
  upload_path <$> List.filter accepted parts.

(** The file system after the loop: each accepted part stored in turn. *)
Definition saved_files (parts : list FileStorage)
    (fs : gmap string (list Byte.byte)) : gmap string (list Byte.byte) :=
  fold_left (fun fs file => <[upload_path file := content file]> fs)
            (List.filter accepted parts) fs.

End WithSecureFilename.

End Uploads.

(** ** Concrete requests *)

Module Requests.
Import Np Cv Sys Server Examples.

(** One upload that passes the filter and one that does not. *)
Definition one_accepted : list FileStorage :=
  [mkFile "a.png" (raw (uniform 2 2 9)); mkFile "notes.txt" []].

(** Two uploads that pass the filter, of which one decodes. *)
Definition one_decodable : list FileStorage :=
  [mkFile "a.png" (raw (uniform 2 2 9)); mkFile "b.png" [Byte.x00]].

(** Two uploads of one height: the stand-in stitcher pastes them. *)
Definition stitchable : list FileStorage :=
  [mkFile "left.jpg" (raw dark_bright); mkFile "right.jpg" (raw (uniform 2 2 200))].

(** Two uploads whose names are made the same by [Model.secure_filename]. *)
Definition same_name : list FileStorage :=
  [mkFile "a b.png" (raw (uniform 2 2 9)); mkFile "a_b.png" (raw (uniform 2 2 7))].

(** Two more uploads of one height. *)
Definition stitchable_too : list FileStorage :=
  [mkFile "one.bmp" (raw plain); mkFile "two.bmp" (raw plain)].

(** An empty file system at clock [t]. *)
Definition fresh (t : Z) : World := mkWorld ∅ t [].

(** Two files that decode, of one height. *)
Definition two_good : World :=
  mkWorld {[ "uploads/a.png" := raw (uniform 2 2 9);
             "uploads/b.png" := raw (uniform 2 3 9) ]} 0 [].

(** The world of [served], one second later. *)
Definition served_later : World := mkWorld (files served) 6 [].

End Requests.

(** * Properties *)

Import PyStr Np Cv Sys Server.
Local Open Scope io_scope.

(** Closes a goal that evaluation decides. *)
Ltac evaluated := vm_compute; first [reflexivity | lia | done].

(** Checks [within] for each contour of a concrete list. *)
Ltac contours_within :=
  repeat first [apply Forall_cons; split | apply Forall_nil | split];
  first [discriminate | vm_compute; intuition congruence].

(** ** Strings *)

Lemma rsplit1_no_sep c s : contains c s = false -> rsplit1 c s = [s].
Proof.
  induction s as [|a s IH]; simpl; [done|].
  destruct (Ascii.eqb a c) eqn:E; [done|].
  intros Hs. by rewrite (IH Hs).
Qed.

Lemma rsplit1_split c stem ext :
  contains c ext = false -> rsplit1 c (stem +:+ String c ext) = [stem; ext].
Proof.
  intros Hext. induction stem as [|a stem IH]; simpl.
  - by rewrite (rsplit1_no_sep _ _ Hext), Ascii.eqb_refl.
  - by rewrite IH.
Qed.

Lemma contains_split c s :
  contains c s = true ->
  exists stem ext, s = stem +:+ String c ext /\ contains c ext = false.
Proof.
  induction s as [|a s IH]; simpl; [done|].
  destruct (contains c s) eqn:Hs.
  - intros _. destruct (IH eq_refl) as (stem & ext & -> & Hext).
    by exists (String a stem), ext.
  - destruct (Ascii.eqb a c) eqn:E; [|done].
    intros _. apply Ascii.eqb_eq in E as ->. by exists EmptyString, s.
Qed.

Lemma contains_app c s t : contains c (s +:+ String c t) = true.
Proof.
  induction s as [|a s IH]; simpl.
  - by rewrite Ascii.eqb_refl.
  - rewrite IH. by destruct (Ascii.eqb a c).
Qed.

Lemma allowed_extension ext :
  ext ∈ ALLOWED_EXTENSIONS <->
  ext = "png" \/ ext = "jpg" \/ ext = "jpeg" \/ ext = "bmp".
Proof.
  unfold ALLOWED_EXTENSIONS.
  rewrite !elem_of_union, !elem_of_singleton. tauto.
Qed.

(** [allowed_file] in terms of the lowered extension. *)
Lemma allowed_file_lowered (name : string) :
  allowed_file name = true <->
  exists stem ext,
    name = stem +:+ "." +:+ ext /\ contains "." ext = false /\
    (lower ext = "png" \/ lower ext = "jpg" \/ lower ext = "jpeg" \/ lower ext = "bmp").
Proof.
  unfold allowed_file. split.
  - intros [Hdot Hext]%andb_true_iff.
    destruct (contains_split _ _ Hdot) as (stem & ext & -> & Hno).
    rewrite (rsplit1_split _ _ _ Hno) in Hext. simpl in Hext.
    apply bool_decide_eq_true in Hext.
    exists stem, ext. split_and!; [done..|]. by apply allowed_extension.
  - intros (stem & ext & -> & Hno & Hin).
    change (stem +:+ "." +:+ ext) with (stem +:+ String "." ext).
    rewrite contains_app, (rsplit1_split _ _ _ Hno). simpl.
    apply bool_decide_eq_true. by apply allowed_extension.
Qed.

(** Lowering a character gives a letter of the table exactly for that
    letter and its capital. *)
Lemma lower_ascii_letter a b :
  b ∈ ["b"; "e"; "g"; "j"; "m"; "n"; "p"]%char ->
  Ascii.eqb (lower_ascii a) b = Ascii.eqb a b || Ascii.eqb a (capital b).
Proof.
  rewrite !elem_of_cons, elem_of_nil.
  intros [->|[->|[->|[->|[->|[->|[->|[]]]]]]]];
    by destruct a as [[] [] [] [] [] [] [] []].
Qed.

Lemma lower_spelled word s :
  Forall (fun b => b ∈ ["b"; "e"; "g"; "j"; "m"; "n"; "p"]%char)
         (list_ascii_of_string word) ->
  String.eqb (lower s) word = spelled word s.
Proof.
  revert s. induction word as [|b word IH]; intros s Hword.
  - by destruct s.
  - destruct s as [|a s]; [done|]. cbn in Hword |- *.
    inversion_clear Hword as [|?? Hb Hrest].
    by rewrite (lower_ascii_letter a b Hb), IH.
Qed.

Lemma lower_is_spelled ext :
  (lower ext = "png" \/ lower ext = "jpg" \/ lower ext = "jpeg" \/ lower ext = "bmp") <->
  (spelled "png" ext = true \/ spelled "jpg" ext = true \/
   spelled "jpeg" ext = true \/ spelled "bmp" ext = true).
Proof.
  rewrite <- !(lower_spelled _ ext), !String.eqb_eq; [done|..];
    cbn; repeat constructor;
    repeat first [apply list_elem_of_here | apply list_elem_of_further].
Qed.

(** C10. [allowed_file] accepts a name exactly when the name has a dot and
    the part after its last dot spells png, jpg, jpeg or bmp, each letter
    in either case.  A name without a dot has no such part and is rejected;
    the case of the letters does not matter. *)
Theorem allowed_file_iff (name : string) :
  allowed_file name = true <->
  exists stem ext,
    name = stem +:+ "." +:+ ext /\ contains "." ext = false /\
    (spelled "png" ext = true \/ spelled "jpg" ext = true \/
     spelled "jpeg" ext = true \/ spelled "bmp" ext = true).
Proof.
  rewrite allowed_file_lowered.
  split; intros (stem & ext & Hname & Hno & Hext); exists stem, ext;
    (split_and!; [done..|]); by apply lower_is_spelled.
Qed.

(** A name with a capitalised extension, through the characterisation. *)
Lemma allowed_file_iff_witness : allowed_file "pano.JPG" = true.
Proof.
  apply (proj2 (allowed_file_iff "pano.JPG")).
  exists "pano", "JPG". split_and!; [reflexivity..|]. right. left. reflexivity.
Defined.

(** A name without a dot is rejected. *)
Lemma allowed_file_no_dot name :
  contains "." name = false -> allowed_file name = false.
Proof. intros Hno. unfold allowed_file. by rewrite Hno. Qed.

(** The case of the extension does not matter. *)
Lemma allowed_file_case stem ext ext' :
  contains "." ext = false -> contains "." ext' = false ->
  lower ext = lower ext' ->
  allowed_file (stem +:+ "." +:+ ext) = allowed_file (stem +:+ "." +:+ ext').
Proof.
  intros Hno Hno' Heq. unfold allowed_file.
  change (stem +:+ "." +:+ ext) with (stem +:+ String "." ext).
  change (stem +:+ "." +:+ ext') with (stem +:+ String "." ext').
  rewrite !contains_app, (rsplit1_split _ _ _ Hno), (rsplit1_split _ _ _ Hno').
  simpl. by rewrite Heq.
Qed.

Example allowed_file_samples :
  allowed_file "pano.JPG" = true /\ allowed_file "a.b.jpeg" = true /\
  allowed_file "png" = false /\ allowed_file "notes.txt" = false /\
  allowed_file "archive.png.zip" = false.
Proof. by vm_compute. Qed.

(** ** Slices *)

Lemma slice_inside {A} (l : list A) lo hi :
  0 <= lo <= hi -> hi <= Z.of_nat (length l) ->
  slice lo hi l = take (Z.to_nat (hi - lo)) (drop (Z.to_nat lo) l).
Proof.
  intros Hlo Hhi. unfold slice, clamp.
  destruct (Z.ltb_spec lo 0), (Z.ltb_spec hi 0); try lia.
  by rewrite !Z.min_l by lia.
Qed.

Lemma slice_length {A} (l : list A) lo hi :
  0 <= lo <= hi -> hi <= Z.of_nat (length l) ->
  Z.of_nat (length (slice lo hi l)) = hi - lo.
Proof.
  intros Hlo Hhi. rewrite slice_inside by done.
  rewrite length_take, length_drop. lia.
Qed.

(** From a non-negative start, item [i] of the slice is item [lo + i] of
    the list, whether or not the range runs past the end. *)
Lemma slice_lookup_from {A} (l : list A) lo hi (i : nat) :
  0 <= lo -> Z.of_nat i < hi - lo ->
  slice lo hi l !! i = l !! (Z.to_nat lo + i)%nat.
Proof.
  intros Hlo Hi. unfold slice, clamp.
  destruct (Z.ltb_spec lo 0), (Z.ltb_spec hi 0); try lia.
  set (n := Z.of_nat (length l)).
  destruct (decide (lo + Z.of_nat i < n)) as [Hin|Hout].
  - rewrite lookup_take_lt by lia. rewrite lookup_drop. f_equal. lia.
  - rewrite (lookup_ge_None_2 l) by (subst n; lia).
    apply lookup_ge_None_2. rewrite length_take, length_drop. subst n. lia.
Qed.

Lemma slice_all {A} (l : list A) : slice 0 (Z.of_nat (length l)) l = l.
Proof.
  rewrite slice_inside by lia. simpl.
  rewrite Z.sub_0_r, Nat2Z.id. apply firstn_all.
Qed.

Lemma slice2_all {A} (a : list (list A)) :
  rectangular a -> slice2 0 (height a) 0 (width a) a = a.
Proof.
  intros Hrect. unfold slice2, height. rewrite slice_all.
  unfold rectangular in Hrect. revert Hrect. generalize (width a) as n.
  intros n Hrect. induction Hrect as [|row rows Hrow _ IH]; [done|].
  by rewrite fmap_cons, IH, <- Hrow, slice_all.
Qed.

Lemma slice2_shape {A} (a : list (list A)) x y w h :
  rectangular a ->
  0 <= x -> 0 <= y -> 0 < w -> 0 < h -> x + w <= width a -> y + h <= height a ->
  height (slice2 y (y + h) x (x + w) a) = h ∧
  width (slice2 y (y + h) x (x + w) a) = w ∧
  rectangular (slice2 y (y + h) x (x + w) a).
Proof.
  intros Hrect Hx Hy Hw Hh Hxw Hyh.
  assert (Hrows : Forall (fun row : list A => Z.of_nat (length row) = w)
                         (slice2 y (y + h) x (x + w) a)).
  { unfold slice2. apply Forall_fmap.
    assert (Hsub : Forall (fun row : list A => Z.of_nat (length row) = width a)
                          (slice y (y + h) a)).
    { rewrite slice_inside by (unfold height in *; lia).
      apply Forall_take, Forall_drop, Hrect. }
    eapply Forall_impl; [exact Hsub|]. intros row Hrow. cbn in Hrow |- *.
    rewrite slice_length by lia. lia. }
  assert (Hlen : height (slice2 y (y + h) x (x + w) a) = h).
  { unfold slice2, height. rewrite length_fmap.
    rewrite slice_length by (unfold height in *; lia). lia. }
  split; [done|].
  destruct (slice2 y (y + h) x (x + w) a) as [|row rows] eqn:E.
  - unfold height in Hlen. cbn in Hlen. lia.
  - assert (width (row :: rows) = w) as Hwd by (cbn; by inversion Hrows).
    split; [done|]. unfold rectangular. by rewrite Hwd.
Qed.

Lemma slice2_at {A} (a : list (list A)) x y w h i j :
  0 <= x -> 0 <= y -> 0 <= i < h -> 0 <= j < w ->
  at_ (slice2 y (y + h) x (x + w) a) j i = at_ a (x + j) (y + i).
Proof.
  intros Hx Hy Hi Hj. unfold at_, slice2.
  destruct (Z.ltb_spec j 0), (Z.ltb_spec i 0),
           (Z.ltb_spec (x + j) 0), (Z.ltb_spec (y + i) 0); try lia.
  cbn [orb]. rewrite list_lookup_fmap.
  replace (slice y (y + h) a !! Z.to_nat i) with (a !! Z.to_nat (y + i)).
  2:{ rewrite (slice_lookup_from a y (y + h) (Z.to_nat i)) by lia. f_equal. lia. }
  destruct (a !! Z.to_nat (y + i)) as [row|]; [|done]. cbn.
  rewrite (slice_lookup_from row x (x + w) (Z.to_nat j)) by lia. f_equal. lia.
Qed.

Lemma at_inside {A} (a : list (list A)) x y :
  rectangular a -> 0 <= x < width a -> 0 <= y < height a -> is_Some (at_ a x y).
Proof.
  intros Hrect Hx Hy. unfold at_, height in *.
  destruct (Z.ltb_spec x 0), (Z.ltb_spec y 0); try lia. cbn [orb].
  destruct (lookup_lt_is_Some_2 a (Z.to_nat y)) as [row Hrow]; [lia|].
  rewrite Hrow. cbn.
  unfold rectangular in Hrect. rewrite Forall_forall in Hrect.
  pose proof (Hrect row (list_elem_of_lookup_2 _ _ _ Hrow)).
  apply lookup_lt_is_Some_2. lia.
Qed.

(** ** The rectangle of a contour *)

Section Extremes.
Context {B : Type} (f : B -> Z).

Lemma foldr_min_le x0 ps :
  foldr (fun p m => Z.min (f p) m) x0 ps <= x0 /\
  Forall (fun p => foldr (fun p m => Z.min (f p) m) x0 ps <= f p) ps.
Proof.
  induction ps as [|p ps [IH1 IH2]]; simpl; [split; [lia|constructor]|].
  split; [lia|]. constructor; [lia|].
  eapply Forall_impl; [exact IH2|]. simpl. intros; lia.
Qed.

Lemma foldr_max_ge x0 ps :
  x0 <= foldr (fun p m => Z.max (f p) m) x0 ps /\
  Forall (fun p => f p <= foldr (fun p m => Z.max (f p) m) x0 ps) ps.
Proof.
  induction ps as [|p ps [IH1 IH2]]; simpl; [split; [lia|constructor]|].
  split; [lia|]. constructor; [lia|].
  eapply Forall_impl; [exact IH2|]. simpl. intros; lia.
Qed.

Lemma foldr_min_attained x0 ps :
  foldr (fun p m => Z.min (f p) m) x0 ps = x0 ∨
  ∃ p, p ∈ ps ∧ f p = foldr (fun p m => Z.min (f p) m) x0 ps.
Proof.
  induction ps as [|p ps IH]; cbn; [by left|].
  destruct (Z.min_spec (f p) (foldr (fun p m => Z.min (f p) m) x0 ps))
    as [[_ ->]|[_ ->]].
  - right. exists p. split; [left|done].
  - destruct IH as [IH|(q & Hq & IH)]; [by left|].
    right. exists q. split; [by right|done].
Qed.

Lemma foldr_max_attained x0 ps :
  foldr (fun p m => Z.max (f p) m) x0 ps = x0 ∨
  ∃ p, p ∈ ps ∧ f p = foldr (fun p m => Z.max (f p) m) x0 ps.
Proof.
  induction ps as [|p ps IH]; cbn; [by left|].
  destruct (Z.max_spec (f p) (foldr (fun p m => Z.max (f p) m) x0 ps))
    as [[_ ->]|[_ ->]].
  - destruct IH as [IH|(q & Hq & IH)]; [by left|].
    right. exists q. split; [by right|done].
  - right. exists p. split; [left|done].
Qed.

End Extremes.

(** The rectangle of a non-empty contour: every point lies in it, and each
    of its four sides carries a point. *)
Lemma boundingRect_spec (c : Contour) x y w h :
  c ≠ [] -> boundingRect c = (x, y, w, h) ->
  Forall (fun p : Point => x <= p.1 < x + w ∧ y <= p.2 < y + h) c ∧
  (∃ p, p ∈ c ∧ p.1 = x) ∧ (∃ p, p ∈ c ∧ p.2 = y) ∧
  (∃ p, p ∈ c ∧ p.1 = x + w - 1) ∧ (∃ p, p ∈ c ∧ p.2 = y + h - 1).
Proof.
  destruct c as [|[x0 y0] ps]; [done|]. intros _. cbn.
  intros [= <- <- <- <-].
  destruct (foldr_min_le fst x0 ps) as [Hx1 Hx2].
  destruct (foldr_min_le snd y0 ps) as [Hy1 Hy2].
  destruct (foldr_max_ge fst x0 ps) as [Hx3 Hx4].
  destruct (foldr_max_ge snd y0 ps) as [Hy3 Hy4].
  split_and!.
  - constructor; [cbn; lia|].
    rewrite Forall_forall in *. intros p Hp.
    specialize (Hx2 p Hp). specialize (Hy2 p Hp).
    specialize (Hx4 p Hp). specialize (Hy4 p Hp). cbn in *. lia.
  - destruct (foldr_min_attained fst x0 ps) as [E|(p & Hp & E)].
    + exists (x0, y0). split; [left|done].
    + exists p. split; [by right|done].
  - destruct (foldr_min_attained snd y0 ps) as [E|(p & Hp & E)].
    + exists (x0, y0). split; [left|done].
    + exists p. split; [by right|done].
  - destruct (foldr_max_attained fst x0 ps) as [E|(p & Hp & E)].
    + exists (x0, y0). split; [left|cbn; lia].
    + exists p. split; [by right|lia].
  - destruct (foldr_max_attained snd y0 ps) as [E|(p & Hp & E)].
    + exists (x0, y0). split; [left|cbn; lia].
    + exists p. split; [by right|lia].
Qed.

Lemma boundingRect_within {A} (a : list (list A)) (c : Contour) x y w h :
  within a c -> boundingRect c = (x, y, w, h) ->
  0 <= x ∧ 0 <= y ∧ x + w <= width a ∧ y + h <= height a ∧ 0 < w ∧ 0 < h.
Proof.
  intros [Hne Hin] Hrect.
  destruct (boundingRect_spec c x y w h Hne Hrect)
    as (Hall & (p1 & Hp1 & E1) & (p2 & Hp2 & E2) & (p3 & Hp3 & E3) & (p4 & Hp4 & E4)).
  rewrite Forall_forall in Hin.
  pose proof (Hin p1 Hp1). pose proof (Hin p2 Hp2).
  pose proof (Hin p3 Hp3). pose proof (Hin p4 Hp4).
  rewrite Forall_forall in Hall. pose proof (Hall p1 Hp1). lia.
Qed.

Lemma boundingRect_spans {A} (a : list (list A)) (c : Contour) :
  within a c -> spans a c -> boundingRect c = (0, 0, width a, height a).
Proof.
  intros Hin ((p1 & Hp1 & E1) & (p2 & Hp2 & E2) & (p3 & Hp3 & E3) & (p4 & Hp4 & E4)).
  destruct (boundingRect c) as [[[x y] w] h] eqn:Hrect.
  pose proof (boundingRect_within a c x y w h Hin Hrect).
  destruct Hin as [Hne Hin].
  destruct (boundingRect_spec c x y w h Hne Hrect) as (Hall & _).
  rewrite Forall_forall in Hall.
  pose proof (Hall p1 Hp1). pose proof (Hall p2 Hp2).
  pose proof (Hall p3 Hp3). pose proof (Hall p4 Hp4).
  repeat f_equal; lia.
Qed.

(** ** [max] with a key *)

Lemma py_max_elem {A} (key : A -> Q) first rest :
  py_max key first rest ∈ first :: rest.
Proof.
  unfold py_max. revert first.
  induction rest as [|c rest IH]; intros first; simpl; [left|].
  destruct (Qle_bool (key c) (key first)).
  - specialize (IH first). apply elem_of_cons in IH as [->|IH]; [left|].
    by do 2 right.
  - right. apply IH.
Qed.

Lemma py_max_ge_first {A} (key : A -> Q) first rest :
  (key first <= key (py_max key first rest))%Q.
Proof.
  unfold py_max. revert first.
  induction rest as [|c rest IH]; intros first; simpl; [apply Qle_refl|].
  destruct (Qle_bool (key c) (key first)) eqn:E; [apply IH|].
  eapply Qle_trans; [|apply IH].
  destruct (Qlt_le_dec (key first) (key c)) as [Hlt|Hle].
  - by apply Qlt_le_weak.
  - apply Qle_bool_iff in Hle. congruence.
Qed.

Lemma py_max_greatest {A} (key : A -> Q) first rest c :
  c ∈ first :: rest -> (key c <= key (py_max key first rest))%Q.
Proof.
  revert first. induction rest as [|d rest IH]; intros first Hc.
  - apply list_elem_of_singleton in Hc as ->. apply Qle_refl.
  - apply elem_of_cons in Hc as [->|Hc]; [apply py_max_ge_first|].
    unfold py_max in *. simpl.
    destruct (Qle_bool (key d) (key first)) eqn:E.
    + apply elem_of_cons in Hc as [->|Hc].
      * apply Qle_bool_iff in E. eapply Qle_trans; [exact E|].
        apply (py_max_ge_first key first rest).
      * apply IH. by right.
    + by apply IH.
Qed.

(** ** The border cropper *)

Section Crop.
Context `{Cv2}.

Lemma crop_panorama_unfold (panorama : Image) :
  crop_panorama panorama =
    match contours_of panorama with
    | [] => panorama
    | c :: cs =>
        let '(x, y, w, h) := boundingRect (py_max contourArea c cs) in
        slice2 y (y + h) x (x + w) panorama
    end.
Proof.
  unfold crop_panorama, contours_of, closed_mask.
  destruct (threshold _ _ _ _) as [t thresh]. cbn [snd].
  destruct (findContours _ _ _) as [contours hierarchy]. cbn [fst].
  destruct contours as [|c cs]; [done|].
  by destruct (boundingRect _) as [[[x y] w] h].
Qed.

Lemma selected_within (panorama : Image) c cs :
  Forall (within panorama) (c :: cs) ->
  within panorama (py_max contourArea c cs).
Proof.
  intros Hall. rewrite Forall_forall in Hall. apply Hall, py_max_elem.
Qed.

(** C4. When contour extraction on the thresholded and closed mask finds no
    contour, the cropper returns its input unchanged. *)
Theorem crop_no_contours (panorama : Image) :
  contours_of panorama = [] -> crop_panorama panorama = panorama.
Proof. intros Hnone. by rewrite crop_panorama_unfold, Hnone. Qed.

(** C2. When a contour is found, and the contours are made of pixel
    positions of the image as the library documents, the rectangle
    (x, y, w, h) the cropper selects lies inside the image with w and h
    positive, and the extracted sub-image has exactly h rows and w columns. *)
Theorem crop_rectangle_in_bounds (panorama : Image) c cs :
  rectangular panorama ->
  contours_of panorama = c :: cs ->
  Forall (within panorama) (c :: cs) ->
  let '(x, y, w, h) := boundingRect (py_max contourArea c cs) in
  0 <= x ∧ 0 <= y ∧ x + w <= width panorama ∧ y + h <= height panorama ∧
  0 < w ∧ 0 < h ∧
  crop_panorama panorama = slice2 y (y + h) x (x + w) panorama ∧
  height (crop_panorama panorama) = h ∧ width (crop_panorama panorama) = w.
Proof.
  intros Hrect Hcs Hin. rewrite crop_panorama_unfold, Hcs.
  pose proof (selected_within panorama c cs Hin) as Hsel.
  destruct (boundingRect _) as [[[x y] w] h] eqn:Hbr.
  destruct (boundingRect_within panorama _ x y w h Hsel Hbr) as (?&?&?&?&?&?).
  destruct (slice2_shape panorama x y w h) as (?&?&?); done.
Qed.

(** C3. When the mask yields at least one contour, the cropper selects a
    contour of the list whose area no other contour of the list exceeds,
    takes (x, y, w, h), the axis-aligned bounding rectangle of that contour
    (it covers every point of the contour, and each of its four sides
    carries one), and returns the sub-image under it: h rows of w columns,
    where the pixel at row i and column j is the input's pixel at row y + i
    and column x + j. *)
Theorem crop_largest_contour (panorama : Image) c cs :
  rectangular panorama ->
  contours_of panorama = c :: cs ->
  Forall (within panorama) (c :: cs) ->
  let largest_cnt := py_max contourArea c cs in
  let '(x, y, w, h) := boundingRect largest_cnt in
  largest_cnt ∈ c :: cs ∧
  (∀ c', c' ∈ c :: cs -> (contourArea c' <= contourArea largest_cnt)%Q) ∧
  bounding_rectangle_of largest_cnt (x, y, w, h) ∧
  crop_panorama panorama = slice2 y (y + h) x (x + w) panorama ∧
  height (crop_panorama panorama) = h ∧ width (crop_panorama panorama) = w ∧
  ∀ i j, 0 <= i < h -> 0 <= j < w ->
    is_Some (at_ panorama (x + j) (y + i)) ∧
    at_ (crop_panorama panorama) j i = at_ panorama (x + j) (y + i).
Proof.
  intros Hrect Hcs Hin largest_cnt.
  pose proof (selected_within panorama c cs Hin) as Hsel. fold largest_cnt in Hsel.
  rewrite crop_panorama_unfold, Hcs. fold largest_cnt.
  destruct (boundingRect largest_cnt) as [[[x y] w] h] eqn:Hbr.
  destruct (boundingRect_within panorama _ x y w h Hsel Hbr) as (?&?&?&?&?&?).
  destruct (slice2_shape panorama x y w h) as (?&?&?); try done.
  split_and!; try done.
  - apply py_max_elem.
  - intros c'. apply py_max_greatest.
  - apply boundingRect_spec; [apply Hsel|done].
  - intros i j Hi Hj. split.
    + apply at_inside; [done|lia..].
    + apply slice2_at; lia.
Qed.

(** When the selected contour has a point on each of the four sides of the
    image, its rectangle is the whole image, the cropper returns the image
    unchanged, and cropping again changes nothing. *)
Lemma crop_spanning_contour (panorama : Image) c cs :
  rectangular panorama ->
  contours_of panorama = c :: cs ->
  Forall (within panorama) (c :: cs) ->
  spans panorama (py_max contourArea c cs) ->
  boundingRect (py_max contourArea c cs) = (0, 0, width panorama, height panorama) ∧
  crop_panorama panorama = panorama ∧
  crop_panorama (crop_panorama panorama) = crop_panorama panorama.
Proof.
  intros Hrect Hcs Hin Hspan.
  pose proof (selected_within panorama c cs Hin) as Hsel.
  pose proof (boundingRect_spans panorama _ Hsel Hspan) as Hbr.
  assert (crop_panorama panorama = panorama) as Hid.
  { rewrite crop_panorama_unfold, Hcs, Hbr. cbn. by apply slice2_all. }
  by rewrite !Hid.
Qed.

(** Conversely, a crop that returns the image is one whose selected contour
    reaches all four sides. *)
Lemma crop_unchanged_spans (panorama : Image) c cs :
  rectangular panorama ->
  contours_of panorama = c :: cs ->
  Forall (within panorama) (c :: cs) ->
  crop_panorama panorama = panorama ->
  spans panorama (py_max contourArea c cs).
Proof.
  intros Hrect Hcs Hin Hid.
  pose proof (selected_within panorama c cs Hin) as Hsel.
  rewrite crop_panorama_unfold, Hcs in Hid.
  destruct (boundingRect _) as [[[x y] w] h] eqn:Hbr.
  destruct (boundingRect_within panorama _ x y w h Hsel Hbr) as (?&?&?&?&?&?).
  destruct (slice2_shape panorama x y w h) as (Hh & Hw & _); try done.
  rewrite Hid in Hh, Hw.
  destruct Hsel as [Hne _].
  destruct (boundingRect_spec _ x y w h Hne Hbr)
    as (_ & (p1 & ? & ?) & (p2 & ? & ?) & (p3 & ? & ?) & (p4 & ? & ?)).
  split_and!; [exists p1|exists p2|exists p3|exists p4]; split; try done; lia.
Qed.

(** When the contours lie on the foreground of the mask and the first
    column of the mask is background, the crop is not the whole image. *)
Lemma crop_shrinks_past_background (panorama : Image) c cs :
  rectangular panorama ->
  contours_of panorama = c :: cs ->
  Forall (within panorama) (c :: cs) ->
  Forall (on_foreground (closed_mask panorama)) (c :: cs) ->
  (∀ y v, at_ (closed_mask panorama) 0 y = Some v -> v = 0) ->
  crop_panorama panorama ≠ panorama.
Proof.
  intros Hrect Hcs Hin Hfg Hcol Hid.
  destruct (crop_unchanged_spans panorama c cs Hrect Hcs Hin Hid)
    as ((p & Hp & Hx) & _).
  rewrite Forall_forall in Hfg.
  specialize (Hfg _ (py_max_elem contourArea c cs)).
  unfold on_foreground in Hfg. rewrite Forall_forall in Hfg.
  destruct (Hfg p Hp) as (v & Hv & Hnz). rewrite Hx in Hv.
  by apply Hnz, (Hcol p.2).
Qed.

End Crop.

(** *** An image that lies above the threshold *)

Lemma connected_sym mask p q : connected mask p q -> connected mask q p.
Proof.
  induction 1 as [|p p' q (Hp & Hp' & Hadj) _ IH]; [apply rtc_refl|].
  eapply rtc_r; [exact IH|]. split_and!; [done..|].
  unfold adjacent in *. lia.
Qed.

(** When every position of a W by H grid is foreground, every position is
    connected to the origin. *)
Lemma grid_connected mask W H :
  (∀ x y, 0 <= x < W -> 0 <= y < H -> foreground mask (x, y)) ->
  ∀ x y, 0 <= x < W -> 0 <= y < H -> connected mask (x, y) (0, 0).
Proof.
  intros Hfull x y Hx Hy.
  remember (Z.to_nat x + Z.to_nat y)%nat as n eqn:Hn.
  revert x y Hx Hy Hn. induction n as [|n IH]; intros x y Hx Hy Hn.
  - assert (x = 0) as -> by lia. assert (y = 0) as -> by lia. apply rtc_refl.
  - destruct (decide (0 < x)) as [Hpos|Hzero].
    + apply rtc_l with (x - 1, y); [|apply IH; lia].
      split_and!; [apply Hfull; lia..|]. unfold adjacent. cbn. lia.
    + apply rtc_l with (x, y - 1); [|apply IH; lia].
      split_and!; [apply Hfull; lia..|]. unfold adjacent. cbn. lia.
Qed.

Section AboveThreshold.
Context `{Cv2}.

(** Above the threshold the binary mask is set everywhere, and the closing
    keeps it so: every position of the image is foreground in the mask. *)
Lemma closed_mask_full (panorama : Image) :
  rectangular panorama -> as_documented panorama -> above_threshold panorama ->
  ∀ x y, 0 <= x < width panorama -> 0 <= y < height panorama ->
    foreground (closed_mask panorama) (x, y).
Proof.
  intros Hrect [Hshape Hbin Hclose _ _ _] Habove x y Hx Hy.
  unfold above_threshold in Habove. cbv zeta in Hbin, Habove.
  set (gray := cvtColor panorama COLOR_BGR2GRAY) in *.
  set (r := threshold gray 0 255 (THRESH_BINARY + THRESH_OTSU)) in *.
  unfold height in Hy.
  destruct (lookup_lt_is_Some_2 panorama (Z.to_nat y)) as [prow Hprow]; [lia|].
  assert (Z.of_nat (length prow) = width panorama) as Hwidth.
  { unfold rectangular in Hrect. rewrite Forall_forall in Hrect.
    apply Hrect. by eapply list_elem_of_lookup_2. }
  destruct (Forall2_lookup_l _ _ _ _ _ Hshape Hprow) as (grow & Hgrow & Hlen).
  pose proof (Forall_lookup_1 _ _ _ _ Habove Hgrow) as Hgt.
  destruct (lookup_lt_is_Some_2 grow (Z.to_nat x)) as [g Hg]; [lia|].
  pose proof (Forall_lookup_1 _ _ _ _ Hgt Hg) as Htg. cbn in Htg.
  assert (r.2 !! Z.to_nat y
          = Some ((fun v => if r.1 <? v then 255 else 0) <$> grow)) as Hthresh.
  { rewrite Hbin. unfold binary. by rewrite list_lookup_fmap, Hgrow. }
  destruct (Forall2_lookup_l _ _ _ _ _ Hclose Hthresh) as (crow & Hcrow & Hrow).
  assert (((fun v => if r.1 <? v then 255 else 0) <$> grow) !! Z.to_nat x = Some 255)
    as Hset.
  { rewrite list_lookup_fmap, Hg. cbn.
    by destruct (Z.ltb_spec r.1 g); [|lia]. }
  destruct (Forall2_lookup_l _ _ _ _ _ Hrow Hset) as (v & Hv & Hnz).
  exists v. split; [|by apply Hnz]. unfold at_. cbn [fst snd].
  destruct (Z.ltb_spec x 0), (Z.ltb_spec y 0); try lia. cbn [orb].
  by rewrite Hcrow; cbn; rewrite Hv.
Qed.


End AboveThreshold.

(** ** Loading and stitching *)

Section Pipeline.
Context `{Cv2}.
Variable secure_filename : string -> string.

Lemma imread_run path w :
  imread path w = (decoded (files w) path, logged [CallImread path] w).
Proof. reflexivity. Qed.

Lemma read_images_run paths w :
  read_images paths w
  = (loaded (files w) paths, logged (read_log (files w) paths) w).
Proof.
  revert w. induction paths as [|path rest IH]; intros w.
  - by destruct w.
  - cbn [read_images]. unfold bind at 1. rewrite imread_run.
    unfold loaded. cbn [omap read_log list_omap].
    destruct (decoded (files w) path) as [img|] eqn:Hd.
    + unfold bind at 1. rewrite imread_run. cbn [files logged].
      rewrite Hd. unfold bind at 1. rewrite IH. unfold ret, logged. cbn.
      unfold loaded. by rewrite <- !app_assoc.
    + rewrite IH. unfold logged. cbn. by rewrite <- !app_assoc.
Qed.

Lemma stitch_images_run paths w :
  stitch_images paths w =
    let images := loaded (files w) paths in
    if Z.of_nat (length images) <? 2
    then ((None, Some "Need at least two images to stitch"),
          logged (read_log (files w) paths) w)
    else
      let w' := logged (CallStitch images :: read_log (files w) paths) w in
      if negb ((stitch Stitcher_PANORAMA images).1 =? Stitcher_OK)
      then ((None, Some ("Stitching failed! Error code: "
                         +:+ pretty (stitch Stitcher_PANORAMA images).1)), w')
      else ((Some (crop_panorama (stitch Stitcher_PANORAMA images).2), None), w').
Proof.
  unfold stitch_images. unfold bind at 1. rewrite read_images_run.
  cbv zeta. destruct (_ <? 2); [done|].
  unfold bind, stitcher_stitch, bind, log, ret, logged. cbn.
  destruct (stitch Stitcher_PANORAMA _) as [status stitched]. cbn.
  by destruct (negb _).
Qed.

Lemma loaded_length fs paths : (length (loaded fs paths) <= length paths)%nat.
Proof.
  unfold loaded. rewrite length_fmap.
  induction paths as [|p paths IH]; cbn; [lia|].
  destruct (decoded fs p); cbn; lia.
Qed.

Lemma read_log_imread fs paths :
  Forall (fun c => ∃ path, c = CallImread path) (read_log fs paths).
Proof.
  induction paths as [|p paths IH]; cbn; [constructor|].
  apply Forall_app. split; [done|].
  destruct (decoded fs p); repeat constructor; eauto.
Qed.

Lemma filter_read_log (P : Call -> bool) fs paths :
  (∀ path, P (CallImread path) = false) ->
  List.filter P (read_log fs paths) = [].
Proof.
  intros HP. induction paths as [|p paths IH]; cbn; [done|].
  rewrite List.filter_app, IH. destruct (decoded fs p); cbn; by rewrite ?HP.
Qed.

Lemma save_uploads_calls parts acc w :
  calls (save_uploads secure_filename parts acc w).2 = calls w.
Proof.
  revert acc w. induction parts as [|file rest IH]; intros acc w; [done|].
  cbn [save_uploads]. destruct (_ && _); [|apply IH].
  unfold bind, write_file. by rewrite IH.
Qed.

Lemma index_run_failure parts w0 image_paths w msg w' :
  save_uploads secure_filename parts [] w0 = (image_paths, w) ->
  (2 <= length image_paths)%nat ->
  stitch_images image_paths w = ((None, Some msg), w') ->
  truthy (Some msg) = true ->
  index secure_filename (POST (Some parts)) w0 = (Template (Some msg) None, w').
Proof.
  intros Hsave Hlen Hst Hmsg. unfold index. unfold bind at 1. rewrite Hsave.
  destruct (Z.ltb_spec (Z.of_nat (length image_paths)) 2); [lia|].
  unfold bind at 1. by rewrite Hst, Hmsg.
Qed.

(** C8. The loader returns the buffers of the paths that decode, in the
    order of the paths; a path that does not decode is left out, and the
    rest of the batch is still read. The file system is left as it was. *)
Theorem read_images_decodable paths w :
  (read_images paths w).1
    = Some <$> omap (fun path => files w !! path ≫= imdecode) paths ∧
  files (read_images paths w).2 = files w.
Proof. by rewrite read_images_run. Qed.

(** C1. When fewer than two of the paths decode, [stitch_images] returns the
    error "Need at least two images to stitch" and no buffer, and the calls
    it made to the library are reads only: the stitcher is not called. *)
Theorem too_few_images paths w :
  (length (loaded (files w) paths) < 2)%nat ->
  (stitch_images paths w).1 = (None, Some "Need at least two images to stitch") ∧
  ∃ reads,
    calls (stitch_images paths w).2 = (reads ++ calls w)%list ∧
    Forall (fun c => ∃ path, c = CallImread path) reads ∧
    List.filter is_stitch (calls (stitch_images paths w).2)
      = List.filter is_stitch (calls w).
Proof.
  intros Hfew. rewrite stitch_images_run. cbv zeta.
  destruct (Z.ltb_spec (Z.of_nat (length (loaded (files w) paths))) 2); [|lia].
  split; [done|]. exists (read_log (files w) paths). cbn.
  split_and!; [done|apply read_log_imread|].
  by rewrite List.filter_app, filter_read_log.
Qed.

(** C7. The result of [stitch_images] is either a buffer with no error or
    an error with no buffer. *)
Theorem stitch_images_tagged paths w :
  (∃ img, (stitch_images paths w).1 = (Some img, None)) ∨
  (∃ msg, (stitch_images paths w).1 = (None, Some msg)).
Proof.
  rewrite stitch_images_run. cbv zeta.
  destruct (_ <? 2); [right; eauto|].
  destruct (negb _); [right|left]; eauto.
Qed.

(** C6. When at least two of the paths decode and the stitcher answers with
    a status c other than [Stitcher_OK], [stitch_images] returns no buffer
    and the message "Stitching failed! Error code: " followed by c in
    decimal; it writes no file and calls no [imwrite]. A request whose
    uploads were saved as these paths is answered with the page carrying
    that message and no image address, and stores no artifact. *)
Theorem stitching_failure_reported image_paths w c :
  let images := loaded (files w) image_paths in
  (2 <= length images)%nat ->
  (stitch Stitcher_PANORAMA images).1 = c ->
  c ≠ Stitcher_OK ->
  let msg := "Stitching failed! Error code: " +:+ pretty c in
  (stitch_images image_paths w).1 = (None, Some msg) ∧
  files (stitch_images image_paths w).2 = files w ∧
  List.filter is_imwrite (calls (stitch_images image_paths w).2)
    = List.filter is_imwrite (calls w) ∧
  ∀ parts w0,
    save_uploads secure_filename parts [] w0 = (image_paths, w) ->
    let served := index secure_filename (POST (Some parts)) w0 in
    served.1 = Template (Some msg) None ∧
    files served.2 = files w ∧
    List.filter is_imwrite (calls served.2) = List.filter is_imwrite (calls w0).
Proof.
  intros images Hlen Hc Hbad msg.
  assert (Hrun : stitch_images image_paths w
                 = ((None, Some msg),
                    logged (CallStitch images :: read_log (files w) image_paths) w)).
  { rewrite stitch_images_run. cbv zeta. fold images.
    destruct (Z.ltb_spec (Z.of_nat (length images)) 2); [lia|].
    rewrite Hc. by destruct (Z.eqb_spec c Stitcher_OK). }
  assert (Hlog : List.filter is_imwrite
                   (calls (logged (CallStitch images :: read_log (files w) image_paths) w))
                 = List.filter is_imwrite (calls w)).
  { cbn. by rewrite List.filter_app, filter_read_log. }
  rewrite Hrun. split_and!; [done..|].
  intros parts w0 Hsave served. subst served.
  erewrite index_run_failure; [| exact Hsave | | exact Hrun | done].
  - split_and!; [done..|]. cbn [snd]. rewrite Hlog.
    by rewrite <- (save_uploads_calls parts [] w0), Hsave.
  - pose proof (loaded_length (files w) image_paths) as Hle.
    fold images in Hle. lia.
Qed.

(** [index] always renders the page: the branch that stands for [imwrite]
    raising on a missing buffer is never taken. *)
Lemma index_renders request w :
  ∃ error url, (index secure_filename request w).1 = Template error url.
Proof.
  destruct request as [|[parts|]]; [by eexists _, _| |by eexists _, _].
  unfold index. unfold bind at 1.
  destruct (save_uploads _ _ _ _) as [image_paths w1].
  destruct (_ <? 2); [by eexists _, _|].
  unfold bind at 1. rewrite stitch_images_run. cbv zeta.
  destruct (_ <? 2); [by eexists _, _|].
  destruct (negb _); by eexists _, _.
Qed.

End Pipeline.

(** ** Retrieval *)

Lemma prefix_contains c p s :
  String.prefix p s = true -> contains c p = true -> contains c s = true.
Proof.
  revert s. induction p as [|a p IH]; intros s; [done|].
  destruct s as [|b s]; [done|]. cbn.
  destruct (ascii_dec a b) as [->|]; [|done].
  intros Hp. destruct (Ascii.eqb b c); [done|]. by apply IH.
Qed.

Lemma safe_join_plain directory name :
  contains "/" name = false -> name ≠ ".." ->
  safe_join directory name = Some (path_join directory name).
Proof.
  intros Hslash Hdots. unfold safe_join.
  destruct (String.eqb_spec name ".."); [done|]. cbn [orb].
  destruct (String.prefix "../" name) eqn:Hup.
  { apply (prefix_contains "/") in Hup; [congruence|done]. }
  destruct (String.prefix "/" name) eqn:Hroot; [|done].
  apply (prefix_contains "/") in Hroot; [congruence|done].
Qed.

Section Retrieval.
Context `{Host}.

(** What [Flask] reads under [path], taken from the application's root. *)
Definition served_from_root (w : World) (path : string) : Response :=
  match match app_root with
        | AtCwd => files w !! path
        | Elsewhere fs => fs !! path
        end with
  | Some data => SendFile data "image/jpeg"
  | None => NotFound
  end.

(** The route, for a name that [safe_join] lets through: the existence
    test looks from the working directory, the delivery from the
    application's root. *)
Lemma get_stitched_image_joined name path w :
  safe_join OUTPUT_FOLDER name = Some path ->
  path_join OUTPUT_FOLDER name = path ->
  get_stitched_image name w =
    (if bool_decide (is_Some (files w !! path)) || is_directory path
     then served_from_root w path
     else Text "No stitched image available" 404, w).
Proof.
  intros Hsafe Hpath.
  unfold get_stitched_image, bind, path_exists, send_from_directory.
  rewrite Hsafe, Hpath. unfold served_from_root.
  destruct (_ || _); [|done].
  unfold bind, read_file, ret. by destruct app_root; destruct (_ !! path).
Qed.

Lemma get_stitched_image_run name w :
  contains "/" name = false -> name ≠ ".." ->
  get_stitched_image name w =
    (if bool_decide (is_Some (files w !! path_join OUTPUT_FOLDER name))
        || is_directory (path_join OUTPUT_FOLDER name)
     then served_from_root w (path_join OUTPUT_FOLDER name)
     else Text "No stitched image available" 404, w).
Proof.
  intros Hslash Hdots.
  by apply get_stitched_image_joined; [apply safe_join_plain|].
Qed.

(** With the server started from its own directory, a name that is no
    directory is answered with the stored bytes when the file exists and
    with the handler's own 404 when it does not. *)
Lemma get_stitched_image_at_cwd name w :
  app_root = AtCwd ->
  contains "/" name = false -> name ≠ ".." ->
  is_directory (path_join OUTPUT_FOLDER name) = false ->
  (get_stitched_image name w).1 =
    match files w !! path_join OUTPUT_FOLDER name with
    | Some data => SendFile data "image/jpeg"
    | None => Text "No stitched image available" 404
    end.
Proof.
  intros Hroot Hslash Hdots Hdir.
  rewrite get_stitched_image_run by done. rewrite Hdir, orb_false_r.
  unfold served_from_root. rewrite Hroot. cbn.
  destruct (files w !! path_join OUTPUT_FOLDER name) as [data|] eqn:E.
  - by rewrite bool_decide_eq_true_2 by eauto.
  - rewrite bool_decide_eq_false_2; [done|]. by intros [? ?].
Qed.

(** With the application's root elsewhere and no such file under it, an
    artifact that the server did store is answered with the 404 page. *)
Lemma get_stitched_image_elsewhere name w fs data :
  app_root = Elsewhere fs ->
  contains "/" name = false -> name ≠ ".." ->
  files w !! path_join OUTPUT_FOLDER name = Some data ->
  fs !! path_join OUTPUT_FOLDER name = None ->
  (get_stitched_image name w).1 = NotFound.
Proof.
  intros Hroot Hslash Hdots Hstored Hnone.
  rewrite get_stitched_image_run by done.
  rewrite Hstored, bool_decide_eq_true_2 by eauto. cbn.
  unfold served_from_root. by rewrite Hroot, Hnone.
Qed.

(** With no file under the name, seen from the working directory and from
    the application's root alike, the answer is a 404: the handler's own
    text, or the 404 page when the path is a directory. *)
Lemma get_stitched_image_missing name w :
  contains "/" name = false -> name ≠ ".." ->
  files w !! path_join OUTPUT_FOLDER name = None ->
  match app_root with
  | AtCwd => True
  | Elsewhere fs => fs !! path_join OUTPUT_FOLDER name = None
  end ->
  (get_stitched_image name w).1 = Text "No stitched image available" 404 ∨
  (get_stitched_image name w).1 = NotFound.
Proof.
  intros Hslash Hdots Hnone Hroot.
  rewrite get_stitched_image_run by done.
  destruct (_ || _); [right|by left].
  unfold served_from_root. destruct app_root; by rewrite ?Hnone, ?Hroot.
Qed.

End Retrieval.

(** * The properties on concrete inputs

    The library interface is instantiated with [Model.cv2]; the hypotheses
    of each property are checked by evaluation. *)

Import Examples.

Example model_contours :
  contours_of dark_bright = [[(3, 0); (3, 1); (4, 1); (4, 0)]] ∧
  contours_of two_blobs
    = [[(10, 7); (10, 8); (11, 8); (11, 7)]; [(0, 0); (0, 2); (2, 2); (2, 0)]] ∧
  contours_of plain = [[(0, 0); (0, 2); (3, 2); (3, 0)]] ∧
  contours_of black = [].
Proof. by vm_compute. Qed.

Lemma too_few_images_witness :
  let paths := ["uploads/a.png"; "uploads/b.png"; "uploads/c.png"] in
  (stitch_images paths one_good).1
    = (None, Some "Need at least two images to stitch") ∧
  ∃ reads,
    calls (stitch_images paths one_good).2 = (reads ++ calls one_good)%list ∧
    Forall (fun c => ∃ path, c = CallImread path) reads ∧
    List.filter is_stitch (calls (stitch_images paths one_good).2)
      = List.filter is_stitch (calls one_good).
Proof.
  intros paths. apply (too_few_images paths one_good). evaluated.
Defined.

Lemma crop_rectangle_in_bounds_witness :
  let '(x, y, w, h) :=
    boundingRect (py_max contourArea [(3, 0); (3, 1); (4, 1); (4, 0)] []) in
  0 <= x ∧ 0 <= y ∧ x + w <= width dark_bright ∧ y + h <= height dark_bright ∧
  0 < w ∧ 0 < h ∧
  crop_panorama dark_bright = slice2 y (y + h) x (x + w) dark_bright ∧
  height (crop_panorama dark_bright) = h ∧ width (crop_panorama dark_bright) = w.
Proof.
  apply (crop_rectangle_in_bounds dark_bright [(3, 0); (3, 1); (4, 1); (4, 0)] []).
  - repeat constructor.
  - evaluated.
  - contours_within.
Defined.

Lemma crop_largest_contour_witness :
  let c := [(10, 7); (10, 8); (11, 8); (11, 7)] in
  let cs := [[(0, 0); (0, 2); (2, 2); (2, 0)]] in
  let largest_cnt := py_max contourArea c cs in
  let '(x, y, w, h) := boundingRect largest_cnt in
  largest_cnt ∈ c :: cs ∧
  (∀ c', c' ∈ c :: cs -> (contourArea c' <= contourArea largest_cnt)%Q) ∧
  bounding_rectangle_of largest_cnt (x, y, w, h) ∧
  crop_panorama two_blobs = slice2 y (y + h) x (x + w) two_blobs ∧
  height (crop_panorama two_blobs) = h ∧ width (crop_panorama two_blobs) = w ∧
  ∀ i j, 0 <= i < h -> 0 <= j < w ->
    is_Some (at_ two_blobs (x + j) (y + i)) ∧
    at_ (crop_panorama two_blobs) j i = at_ two_blobs (x + j) (y + i).
Proof.
  intros c cs.
  apply (crop_largest_contour two_blobs c cs).
  - repeat constructor.
  - evaluated.
  - contours_within.
Defined.

Lemma crop_no_contours_witness : crop_panorama black = black.
Proof. apply (crop_no_contours black). evaluated. Defined.

(** The model library behaves on [plain] as documented. *)
Lemma contours_of_plain : contours_of plain = [[(0, 0); (0, 2); (3, 2); (3, 0)]].
Proof. by vm_compute. Qed.

Lemma closed_mask_plain :
  closed_mask plain = [[255; 255; 255; 255]; [255; 255; 255; 255]; [255; 255; 255; 255]].
Proof. by vm_compute. Qed.

Lemma at_Some_bounds {A} (g : list (list A)) x y v :
  at_ g x y = Some v ->
  0 <= x ∧ 0 <= y ∧ ∃ row, g !! Z.to_nat y = Some row ∧ (Z.to_nat x < length row)%nat.
Proof.
  unfold at_. destruct (Z.ltb_spec x 0), (Z.ltb_spec y 0); try done. cbn [orb].
  destruct (g !! Z.to_nat y) as [row|] eqn:E; [|done]. cbn.
  intros Hv. split_and!; [lia..|]. exists row. split; [done|]. by eapply lookup_lt_Some.
Qed.

Lemma plain_as_documented : as_documented plain.
Proof.
  split.
  - by vm_compute; repeat constructor.
  - by vm_compute.
  - vm_compute. repeat constructor; done.
  - rewrite contours_of_plain. contours_within.
  - rewrite contours_of_plain, closed_mask_plain.
    intros [x y] (v & Hv & _). cbn [fst snd] in Hv.
    exists [(0, 0); (0, 2); (3, 2); (3, 0)]. split; [apply list_elem_of_here|].
    destruct (at_Some_bounds _ _ _ _ Hv) as (Hx & Hy & row & Hrow & Hlen).
    change (boundingRect [(0, 0); (0, 2); (3, 2); (3, 0)]) with (0, 0, 4, 3).
    cbn [inside fst snd].
    destruct (Z.to_nat y) as [|[|[|?]]] eqn:Ey; cbn in Hrow; try done;
      injection Hrow as <-; cbn in Hlen; lia.
  - rewrite contours_of_plain.
    intros [|i] [|j] c1 c2 p q Hi Hj Hij; cbn in Hi, Hj; done.
Qed.


Lemma stitching_failure_reported_witness :
  let image_paths := ["uploads/a.png"; "uploads/b.png"] in
  let msg := "Stitching failed! Error code: 1" in
  (stitch_images image_paths mismatched).1 = (None, Some msg) ∧
  files (stitch_images image_paths mismatched).2 = files mismatched ∧
  List.filter is_imwrite (calls (stitch_images image_paths mismatched).2)
    = List.filter is_imwrite (calls mismatched) ∧
  ∀ parts w0,
    save_uploads Model.secure_filename parts [] w0 = (image_paths, mismatched) ->
    let served := index Model.secure_filename (POST (Some parts)) w0 in
    served.1 = Template (Some msg) None ∧
    files served.2 = files mismatched ∧
    List.filter is_imwrite (calls served.2) = List.filter is_imwrite (calls w0).
Proof.
  intros image_paths msg.
  apply (stitching_failure_reported Model.secure_filename image_paths mismatched 1).
  - evaluated.
  - evaluated.
  - discriminate.
Defined.

(** The same failure, from the request on: two uploads of different heights
    are saved, read back, rejected by the stitcher, and reported. *)
Example index_reports_failure :
  let parts := [mkFile "a.png" (raw (uniform 2 2 9));
                mkFile "notes.txt" [];
                mkFile "b.PNG" (raw (uniform 3 2 9))] in
  let served := index Model.secure_filename (POST (Some parts)) (mkWorld ∅ 0 []) in
  served.1 = Template (Some "Stitching failed! Error code: 1") None ∧
  calls served.2
    = [CallStitch [Some (uniform 2 2 9); Some (uniform 3 2 9)];
       CallImread "uploads/b.PNG"; CallImread "uploads/b.PNG";
       CallImread "uploads/a.png"; CallImread "uploads/a.png"].
Proof. by vm_compute. Qed.

(** A request that succeeds stores the cropped panorama under a name made
    from the clock, and the retrieval route serves those bytes. *)
Example index_then_get :
  let parts := [mkFile "left.jpg" (raw (canvas 2 5 (fun x _ => 3 <=? x)));
                mkFile "right.jpg" (raw (uniform 2 2 200))] in
  let served := index Model.secure_filename (POST (Some parts)) (mkWorld ∅ 1700000000 []) in
  served.1 = Template None (Some "/stitched_image/stitched_1700000000.jpg") ∧
  (@get_stitched_image at_cwd "stitched_1700000000.jpg" served.2).1
    = SendFile (raw (uniform 2 4 200)) "image/jpeg".
Proof. by vm_compute. Qed.

(** The retrieval route with the server started from its own directory:
    a stored artifact is sent, a missing one gets the handler's text, and
    the folder itself, which exists but is no file, gets the 404 page. *)
Example get_stitched_image_samples :
  (@get_stitched_image at_cwd "stitched_5.jpg" served).1
    = SendFile (raw plain) "image/jpeg" ∧
  (@get_stitched_image at_cwd "stitched_6.jpg" served).1
    = Text "No stitched image available" 404 ∧
  (@get_stitched_image at_cwd "." served).1 = NotFound ∧
  (@get_stitched_image at_cwd ".." served).1 = NotFound.
Proof. by vm_compute. Qed.

(** The two starts side by side: a request stitches two images and stores
    the artifact at clock 5; started from its own directory the server then
    sends the stored bytes, started from another directory it answers the
    same address with the 404 page, although the file is there. *)
Example artifact_not_served_from_elsewhere :
  let parts := [mkFile "left.jpg" (raw (canvas 2 5 (fun x _ => 3 <=? x)));
                mkFile "right.jpg" (raw (uniform 2 2 200))] in
  let served := index Model.secure_filename (POST (Some parts)) (mkWorld ∅ 5 []) in
  served.1 = Template None (Some "/stitched_image/stitched_5.jpg") ∧
  files served.2 !! "outputs/stitched_5.jpg" = Some (raw (uniform 2 4 200)) ∧
  (@get_stitched_image at_cwd "stitched_5.jpg" served.2).1
    = SendFile (raw (uniform 2 4 200)) "image/jpeg" ∧
  (@get_stitched_image started_elsewhere "stitched_5.jpg" served.2).1 = NotFound.
Proof. by vm_compute. Qed.


(** Nor is the cropper idempotent on its own results. [three_levels] is
    cropped to its six brighter columns, which hold no zero pixel; cropped
    again, they lose the three columns of grey 100, since the threshold is
    chosen anew for each image. *)
Example crop_twice_shrinks_again :
  crop_panorama three_levels
    = replicate 2 (grey <$> (replicate 3 100 ++ replicate 3 200)%list) ∧
  fully_nonzero (crop_panorama three_levels) ∧
  crop_panorama (crop_panorama three_levels) = uniform 2 3 200 ∧
  crop_panorama (crop_panorama three_levels) ≠ crop_panorama three_levels.
Proof.
  split_and!; try by vm_compute.
  vm_compute. repeat constructor.
Qed.

(** The same holds whatever traces the contours, as long as it finds one
    and its contours lie on the foreground of the mask: the shrinking comes
    from the threshold, which leaves the dark columns out of the mask. *)
Lemma dark_bright_shrunk_by_any_tracer
    (tracer : Gray -> Z -> Z -> list Contour * list (Z * Z * Z * Z))
    (area : Contour -> Q) c cs :
  let cv := {| imdecode := Model.imdecode; imencode := Model.imencode;
               stitch := Model.stitch; cvtColor := Model.cvtColor;
               threshold := Model.threshold; morphologyEx := Model.morphologyEx;
               findContours := tracer; contourArea := area |} in
  @contours_of cv dark_bright = c :: cs ->
  Forall (within dark_bright) (c :: cs) ->
  Forall (on_foreground (@closed_mask cv dark_bright)) (c :: cs) ->
  @crop_panorama cv dark_bright ≠ dark_bright.
Proof.
  intros cv Hcs Hin Hfg.
  apply (crop_shrinks_past_background dark_bright c cs); try done.
  - repeat constructor.
  - intros y v. change (@closed_mask cv dark_bright) with (closed_mask dark_bright).
    replace (closed_mask dark_bright)
      with [[0; 0; 0; 255; 255]; [0; 0; 0; 255; 255]] by (by vm_compute).
    unfold at_. destruct (0 <? 0) eqn:E0; [done|].
    destruct (y <? 0); [done|]. cbn [orb].
    destruct (Z.to_nat y) as [|[|n]]; cbn; [by intros [= <-]..|done].
Qed.

(** * The request handler *)

Import Uploads.

Section Handler.
Context `{Cv2} `{Host}.
Variable secure_filename : string -> string.

Abbreviation upload_path := (upload_path secure_filename).
Abbreviation saved_paths := (saved_paths secure_filename).
Abbreviation saved_files := (saved_files secure_filename).

Lemma save_uploads_run parts acc w :
  save_uploads secure_filename parts acc w
  = ((acc ++ saved_paths parts)%list,
     mkWorld (saved_files parts (files w)) (now w) (calls w)).
Proof.
  revert acc w. induction parts as [|file rest IH]; intros acc w.
  - unfold Uploads.saved_paths, Uploads.saved_files. cbn.
    rewrite app_nil_r. by destruct w.
  - cbn [save_uploads]. unfold Uploads.saved_paths, Uploads.saved_files in *.
    cbn [List.filter]. fold (accepted file).
    destruct (accepted file) eqn:Hacc; [|apply IH].
    unfold bind at 1, write_file. rewrite IH. cbn. by rewrite <- app_assoc.
Qed.

Lemma imwrite_run path img w :
  imwrite path img w
  = (tt, mkWorld (<[path := imencode path img]> (files w)) (now w)
                 (CallImwrite path img :: calls w)).
Proof. reflexivity. Qed.

(** The whole of a [POST] with an [images] field, branch by branch. *)
Lemma index_run parts w :
  index secure_filename (POST (Some parts)) w =
    let paths := saved_paths parts in
    let fs := saved_files parts (files w) in
    let w1 := mkWorld fs (now w) (calls w) in
    if Z.of_nat (length paths) <? 2
    then (Template (Some "At least two images required") None, w1)
    else
      let images := loaded fs paths in
      if Z.of_nat (length images) <? 2
      then (Template (Some "Need at least two images to stitch") None,
            logged (read_log fs paths) w1)
      else
        let w2 := logged (CallStitch images :: read_log fs paths) w1 in
        let status := (stitch Stitcher_PANORAMA images).1 in
        if negb (status =? Stitcher_OK)
        then (Template (Some ("Stitching failed! Error code: " +:+ pretty status)) None, w2)
        else
          let img := crop_panorama (stitch Stitcher_PANORAMA images).2 in
          (Template None (Some (artifact_url (now w))),
           mkWorld (<[artifact_path (now w) := imencode (artifact_path (now w)) img]> fs)
                   (now w)
                   (CallImwrite (artifact_path (now w)) img :: calls w2)).
Proof.
  unfold index. unfold bind at 1. rewrite save_uploads_run. cbn [app]. cbv zeta.
  destruct (_ <? 2); [done|].
  unfold bind at 1. rewrite stitch_images_run. cbn [files]. cbv zeta.
  destruct (_ <? 2); [done|].
  destruct (negb _); [done|].
  cbn [truthy]. unfold bind at 1, time_time. unfold bind at 1.
  by rewrite imwrite_run.
Qed.

Lemma saved_files_lookup parts fs p :
  saved_files parts fs !! p =
    match last (filter (fun file => upload_path file = p) (List.filter accepted parts)) with
    | Some file => Some (content file)
    | None => fs !! p
    end.
Proof.
  unfold Uploads.saved_files. generalize (List.filter accepted parts) as acc.
  intros acc. revert fs. induction acc as [|file rest IH]; intros fs; [done|].
  cbn [fold_left]. rewrite IH. rewrite filter_cons.
  destruct (decide (upload_path file = p)) as [<-|Hne].
  - destruct (filter _ rest) as [|g gs] eqn:E; cbn.
    + by rewrite lookup_insert_eq.
    + by rewrite last_cons; destruct (last gs).
  - destruct (last (filter _ rest)); [done|]. by rewrite lookup_insert_ne.
Qed.

Lemma output_path_plain name :
  contains "/" name = false ->
  path_join OUTPUT_FOLDER name = "outputs/" +:+ name.
Proof.
  destruct name as [|a rest]; [done|]. cbn [contains].
  destruct (Ascii.eqb_spec a "/") as [->|Hne]; [done|]. intros _.
  destruct a as [[] [] [] [] [] [] [] []]; try done.
Qed.

Lemma upload_path_plain file :
  contains "/" (secure_filename (filename file)) = false ->
  upload_path file = "uploads/" +:+ secure_filename (filename file).
Proof.
  unfold Uploads.upload_path. destruct (secure_filename _) as [|a rest]; [done|].
  cbn [contains].
  destruct (Ascii.eqb_spec a "/") as [->|Hne]; [done|]. intros _.
  destruct a as [[] [] [] [] [] [] [] []]; try done.
Qed.



(** The name of an artifact is one the route can deliver. *)
Lemma artifact_name_plain t :
  safe_join OUTPUT_FOLDER (artifact_name t) = Some ("outputs/" +:+ artifact_name t) ∧
  artifact_path t = "outputs/" +:+ artifact_name t.
Proof. done. Qed.

Lemma get_artifact_run t w :
  get_stitched_image (artifact_name t) w =
    (if bool_decide (is_Some (files w !! artifact_path t))
        || is_directory (artifact_path t)
     then served_from_root w (artifact_path t)
     else Text "No stitched image available" 404, w).
Proof.
  destruct (artifact_name_plain t) as [Hsafe Hpath].
  rewrite Hpath. by apply get_stitched_image_joined.
Qed.

Lemma saved_paths_length parts :
  length (saved_paths parts) = length (List.filter accepted parts).
Proof. unfold Uploads.saved_paths. by rewrite length_fmap. Qed.

(** X1. The upload loop returns, in upload order, one path per part whose
    name is not empty and passes [allowed_file], namely the secured name
    under the upload folder; the other parts give no path. The loop calls
    nothing of the library and leaves the clock alone. *)
Theorem save_uploads_collects parts w :
  (save_uploads secure_filename parts [] w).1
    = upload_path <$> List.filter accepted parts ∧
  calls (save_uploads secure_filename parts [] w).2 = calls w ∧
  now (save_uploads secure_filename parts [] w).2 = now w.
Proof. by rewrite save_uploads_run. Qed.

(** X2. After the upload loop, a path holds the content of the last accepted
    part saved under it, and what it held before when no accepted part is
    saved under it: parts that are not accepted are not stored, and of two
    uploads with one secured name the later replaces the earlier. *)
Theorem uploads_last_wins parts w p :
  files (save_uploads secure_filename parts [] w).2 !! p =
    match last (filter (fun file => upload_path file = p) (List.filter accepted parts)) with
    | Some file => Some (content file)
    | None => files w !! p
    end.
Proof. rewrite save_uploads_run. apply saved_files_lookup. Qed.


(** X4. With two or more accepted uploads of which fewer than two decode, the
    request is answered with "Need at least two images to stitch"; the only
    library calls are reads, and nothing but the uploads is stored. *)
Theorem index_too_few_decodable parts w :
  (2 <= length (List.filter accepted parts))%nat ->
  (length (loaded (saved_files parts (files w)) (saved_paths parts)) < 2)%nat ->
  let served := index secure_filename (POST (Some parts)) w in
  served.1 = Template (Some "Need at least two images to stitch") None ∧
  files served.2 = saved_files parts (files w) ∧
  ∃ reads,
    calls served.2 = (reads ++ calls w)%list ∧
    Forall (fun c => ∃ path, c = CallImread path) reads.
Proof.
  intros Hacc Hfew served. subst served. rewrite index_run. cbv zeta.
  pose proof (saved_paths_length parts) as Hlen.
  destruct (Z.ltb_spec (Z.of_nat (length (saved_paths parts))) 2); [lia|].
  destruct (Z.ltb_spec (Z.of_nat (length (loaded (saved_files parts (files w))
                                                 (saved_paths parts)))) 2); [|lia].
  split_and!; [done..|]. eexists. split; [done|]. apply read_log_imread.
Qed.

(** X5. When at least two uploads decode and the stitcher reports
    [Stitcher_OK], the request is answered with the address
    /stitched_image/stitched_<clock>.jpg and no error, the encoded cropped
    panorama is stored under outputs/stitched_<clock>.jpg, and [imwrite] is
    called exactly once. *)
Theorem index_stores_artifact parts w :
  let fs := saved_files parts (files w) in
  let images := loaded fs (saved_paths parts) in
  (2 <= length images)%nat ->
  (stitch Stitcher_PANORAMA images).1 = Stitcher_OK ->
  let img := crop_panorama (stitch Stitcher_PANORAMA images).2 in
  let served := index secure_filename (POST (Some parts)) w in
  served.1 = Template None (Some (artifact_url (now w))) ∧
  files served.2
    = <[artifact_path (now w) := imencode (artifact_path (now w)) img]> fs ∧
  List.filter is_imwrite (calls served.2)
    = CallImwrite (artifact_path (now w)) img :: List.filter is_imwrite (calls w).
Proof.
  intros fs images Hlen Hok img served. subst served. rewrite index_run. cbv zeta.
  fold fs. fold images.
  pose proof (loaded_length fs (saved_paths parts)) as Hle. fold images in Hle.
  destruct (Z.ltb_spec (Z.of_nat (length (saved_paths parts))) 2); [lia|].
  destruct (Z.ltb_spec (Z.of_nat (length images)) 2); [lia|].
  rewrite Hok. cbn [negb Z.eqb Stitcher_OK]. split_and!; [done..|].
  cbn. by rewrite List.filter_app, filter_read_log.
Qed.

(** X6. With the server started from its own directory (the application's
    root is the working directory), after a request that succeeds the
    retrieval route, asked for the name at the end of the address the
    request returned, serves the bytes the request stored, as image/jpeg. *)
Theorem stored_artifact_is_served parts w :
  app_root = AtCwd ->
  let fs := saved_files parts (files w) in
  let images := loaded fs (saved_paths parts) in
  (2 <= length images)%nat ->
  (stitch Stitcher_PANORAMA images).1 = Stitcher_OK ->
  let img := crop_panorama (stitch Stitcher_PANORAMA images).2 in
  let served := index secure_filename (POST (Some parts)) w in
  served.1 = Template None (Some ("/stitched_image/" +:+ artifact_name (now w))) ∧
  (get_stitched_image (artifact_name (now w)) served.2).1
    = SendFile (imencode (artifact_path (now w)) img) "image/jpeg".
Proof.
  intros Hroot fs images Hlen Hok img served. subst served.
  rewrite get_artifact_run. unfold served_from_root. rewrite Hroot.
  rewrite index_run. cbv zeta.
  fold fs. fold images.
  pose proof (loaded_length fs (saved_paths parts)) as Hle. fold images in Hle.
  destruct (Z.ltb_spec (Z.of_nat (length (saved_paths parts))) 2); [lia|].
  destruct (Z.ltb_spec (Z.of_nat (length images)) 2); [lia|].
  rewrite Hok. cbn [negb Z.eqb Stitcher_OK fst snd files].
  rewrite lookup_insert_eq. by rewrite bool_decide_eq_true_2 by eauto.
Qed.

(** C9, where the code departs from it. The handler stores the artifact
    and tests for it from the working directory, and has Flask deliver it
    from the application's root. With the server started from another
    directory, and no such file under the application's root, a request
    that succeeds stores the artifact and returns its address, the file
    exists, and the retrieval route answers that address with the 404
    page, not with the stored bytes. *)
Theorem stored_artifact_not_served parts w rootfs :
  app_root = Elsewhere rootfs ->
  rootfs !! artifact_path (now w) = None ->
  let fs := saved_files parts (files w) in
  let images := loaded fs (saved_paths parts) in
  (2 <= length images)%nat ->
  (stitch Stitcher_PANORAMA images).1 = Stitcher_OK ->
  let served := index secure_filename (POST (Some parts)) w in
  served.1 = Template None (Some ("/stitched_image/" +:+ artifact_name (now w))) ∧
  is_Some (files served.2 !! artifact_path (now w)) ∧
  (get_stitched_image (artifact_name (now w)) served.2).1 = NotFound.
Proof.
  intros Hroot Hnone fs images Hlen Hok served. subst served.
  rewrite get_artifact_run. unfold served_from_root. rewrite Hroot, Hnone.
  rewrite index_run. cbv zeta.
  fold fs. fold images.
  pose proof (loaded_length fs (saved_paths parts)) as Hle. fold images in Hle.
  destruct (Z.ltb_spec (Z.of_nat (length (saved_paths parts))) 2); [lia|].
  destruct (Z.ltb_spec (Z.of_nat (length images)) 2); [lia|].
  rewrite Hok. cbn [negb Z.eqb Stitcher_OK fst snd files].
  rewrite lookup_insert_eq. by rewrite bool_decide_eq_true_2 by eauto.
Qed.

Lemma index_success_inv parts w url :
  (index secure_filename (POST (Some parts)) w).1 = Template None (Some url) ->
  let images := loaded (saved_files parts (files w)) (saved_paths parts) in
  (2 <= length images)%nat ∧
  (stitch Stitcher_PANORAMA images).1 = Stitcher_OK ∧
  url = artifact_url (now w).
Proof.
  rewrite index_run. cbv zeta.
  destruct (_ <? 2); [done|].
  destruct (Z.ltb_spec (Z.of_nat (length (loaded (saved_files parts (files w))
                                                 (saved_paths parts)))) 2); [done|].
  destruct (Z.eqb_spec (stitch Stitcher_PANORAMA
              (loaded (saved_files parts (files w)) (saved_paths parts))).1 Stitcher_OK)
    as [Hok|Hbad]; [|done].
  cbn. intros [= <-]. split_and!; [lia|done..].
Qed.

(** X7. Two requests that succeed at the same clock value get the same
    address, and after the second one the file behind that address is the
    second panorama, whatever was stored there before. *)
Theorem same_second_overwrites parts1 parts2 w1 w2 url1 url2 :
  now w1 = now w2 ->
  (index secure_filename (POST (Some parts1)) w1).1 = Template None (Some url1) ->
  (index secure_filename (POST (Some parts2)) w2).1 = Template None (Some url2) ->
  let images := loaded (saved_files parts2 (files w2)) (saved_paths parts2) in
  let img := crop_panorama (stitch Stitcher_PANORAMA images).2 in
  url1 = url2 ∧
  files (index secure_filename (POST (Some parts2)) w2).2 !! artifact_path (now w1)
    = Some (imencode (artifact_path (now w1)) img).
Proof.
  intros Hnow H1 H2 images img.
  destruct (index_success_inv _ _ _ H1) as (_ & _ & ->).
  destruct (index_success_inv _ _ _ H2) as (Hlen & Hok & ->).
  rewrite Hnow. split; [done|].
  rewrite index_run. cbv zeta. fold images.
  pose proof (loaded_length (saved_files parts2 (files w2)) (saved_paths parts2)) as Hle.
  fold images in Hle, Hlen, Hok.
  destruct (Z.ltb_spec (Z.of_nat (length (saved_paths parts2))) 2); [lia|].
  destruct (Z.ltb_spec (Z.of_nat (length images)) 2); [lia|].
  rewrite Hok. cbn [negb Z.eqb Stitcher_OK snd files].
  by rewrite lookup_insert_eq.
Qed.

(** X8. Every request is answered with the page; the page never carries both
    an error and an address; the clock is not changed; [imwrite] is called
    once when an address is returned and not at all otherwise; and the
    stitcher is called at most once. *)
Theorem index_response_shape request w :
  ∃ error url,
    (index secure_filename request w).1 = Template error url ∧
    (is_Some error -> url = None) ∧
    now (index secure_filename request w).2 = now w ∧
    length (List.filter is_imwrite (calls (index secure_filename request w).2))
      = (length (List.filter is_imwrite (calls w))
         + match url with Some _ => 1 | None => 0 end)%nat ∧
    (length (List.filter is_stitch (calls (index secure_filename request w).2))
      <= length (List.filter is_stitch (calls w)) + 1)%nat.
Proof.
  assert (Hno : ∀ e u, is_Some (@None string) -> e = u :> option string)
    by (by intros ?? [? ?]).
  destruct request as [|[parts|]]; [| rewrite index_run; cbv zeta;
    repeat (match goal with |- context [if ?b then _ else _] => destruct b end) |];
    eexists _, _; (split; [reflexivity|]); cbn;
    rewrite ?List.filter_app, ?filter_read_log by done; cbn;
    (split_and!; [first [done | apply Hno]|done|lia|lia]).
Qed.

(** X9. When two accepted uploads are saved under the same path, the loader
    hands on two copies of what the second upload decodes to (or nothing,
    when it does not decode): the first upload's content is not read. *)
Theorem colliding_uploads first second w :
  accepted first = true -> accepted second = true ->
  upload_path first = upload_path second ->
  let saved := save_uploads secure_filename [first; second] [] w in
  (read_images saved.1 saved.2).1
    = Some <$> omap (fun _ : FileStorage => imdecode (content second)) [first; second].
Proof.
  intros H1 H2 Hsame saved. subst saved.
  rewrite save_uploads_run, read_images_run. cbn [fst snd files app].
  unfold Uploads.saved_paths, Uploads.saved_files. cbn [List.filter].
  rewrite H1, H2. cbn [fold_left fmap list_fmap]. rewrite Hsame.
  unfold loaded. cbn [omap list_omap]. unfold decoded.
  by rewrite lookup_insert_eq.
Qed.

Lemma filter_none {A} (P : A -> Prop) `{∀ x, Decision (P x)} (l : list A) :
  (∀ x, ¬ P x) -> filter P l = [].
Proof.
  intros HP. induction l as [|x l IH]; [done|].
  rewrite filter_cons. by destruct (decide (P x)) as [?%HP|].
Qed.

(** X10. A request leaves every other artifact as it was: for a name that is
    not the one made from the current clock, the retrieval route answers
    after the request as it did before, given that secured names have no
    slash. *)
Theorem uploads_leave_artifacts request w name :
  (∀ s, contains "/" (secure_filename s) = false) ->
  contains "/" name = false -> name ≠ ".." ->
  name ≠ artifact_name (now w) ->
  (get_stitched_image name (index secure_filename request w).2).1
    = (get_stitched_image name w).1.
Proof.
  intros Hsecure Hslash Hdots Hother.
  rewrite !get_stitched_image_run by done. cbn [fst].
  rewrite (output_path_plain _ Hslash).
  assert (Hkeep : ∀ parts,
            saved_files parts (files w) !! ("outputs/" +:+ name)
            = files w !! ("outputs/" +:+ name)).
  { intros parts. rewrite saved_files_lookup. rewrite filter_none; [done|].
    intros file. rewrite upload_path_plain by apply Hsecure. by cbn. }
  assert (Hsame : files (index secure_filename request w).2 !! ("outputs/" +:+ name)
                  = files w !! ("outputs/" +:+ name)).
  { destruct request as [|[parts|]]; [done| |done].
    rewrite index_run. cbv zeta.
    destruct (_ <? 2); [by cbn; rewrite Hkeep|].
    destruct (_ <? 2); [by cbn; rewrite Hkeep|].
    destruct (negb _); [by cbn; rewrite Hkeep|].
    cbn [snd files]. rewrite lookup_insert_ne; [by rewrite Hkeep|].
    destruct (artifact_name_plain (now w)) as [_ ->]. cbn.
    intros [= E]. by apply Hother. }
  unfold served_from_root. by rewrite Hsame.
Qed.

End Handler.

(** * The loader and the stitcher, once more *)

Section Stitching.
Context `{Cv2}.

(** X11. The loader reads the paths in their order, each one once with
    [imread] and once more when it decodes, and calls nothing else: the
    calls it adds to the log, oldest first, are these reads of these paths;
    what it returns are the buffers of the paths that decode. *)
Theorem read_images_reads_twice paths w :
  reverse (calls (read_images paths w).2)
  = (reverse (calls w) ++
     paths ≫= (fun path =>
       match files w !! path ≫= imdecode with
       | Some _ => [CallImread path; CallImread path]
       | None => [CallImread path]
       end))%list ∧
  (read_images paths w).1
  = Some <$> omap (fun path => files w !! path ≫= imdecode) paths.
Proof.
  rewrite read_images_run. cbn [fst snd]. split; [|done].
  unfold logged. cbn [calls]. rewrite reverse_app. f_equal.
  induction paths as [|path rest IH]; [done|].
  cbn [read_log mbind list_bind]. rewrite reverse_app, IH. f_equal.
  unfold decoded. by destruct (files w !! path ≫= imdecode).
Qed.

(** X12. When at least two paths decode, [stitch_images] calls the stitcher
    exactly once, with the decoded buffers in the order of the paths. *)
Theorem stitcher_called_once paths w :
  (2 <= length (loaded (files w) paths))%nat ->
  List.filter is_stitch (calls (stitch_images paths w).2)
    = CallStitch (loaded (files w) paths) :: List.filter is_stitch (calls w).
Proof.
  intros Hlen. rewrite stitch_images_run. cbv zeta.
  destruct (Z.ltb_spec (Z.of_nat (length (loaded (files w) paths))) 2); [lia|].
  destruct (negb _); cbn; by rewrite List.filter_app, filter_read_log.
Qed.

(** X13. When at least two paths decode and the stitcher reports
    [Stitcher_OK], [stitch_images] returns the cropped panorama and no
    error, and writes no file. *)
Theorem stitch_images_success paths w :
  let images := loaded (files w) paths in
  (2 <= length images)%nat ->
  (stitch Stitcher_PANORAMA images).1 = Stitcher_OK ->
  (stitch_images paths w).1
    = (Some (crop_panorama (stitch Stitcher_PANORAMA images).2), None) ∧
  files (stitch_images paths w).2 = files w.
Proof.
  intros images Hlen Hok. rewrite stitch_images_run. cbv zeta. fold images.
  destruct (Z.ltb_spec (Z.of_nat (length images)) 2); [lia|].
  by rewrite Hok.
Qed.

Lemma py_max_cons {A} (key : A -> Q) first c rest :
  py_max key first (c :: rest)
  = py_max key (if Qle_bool (key c) (key first) then first else c) rest.
Proof. reflexivity. Qed.

(** X14. [max] with a key returns the first item of maximal key: every item
    before it has a strictly smaller key, and no item after it a greater
    one. So of several contours of the same largest area, [crop_panorama]
    takes the first in the library's order. *)
Theorem py_max_first_maximal {A} (key : A -> Q) first rest :
  ∃ before after,
    first :: rest = (before ++ py_max key first rest :: after)%list ∧
    Forall (fun c => (key c < key (py_max key first rest))%Q) before ∧
    Forall (fun c => (key c <= key (py_max key first rest))%Q) after.
Proof.
  revert first. induction rest as [|c rest IH]; intros first.
  - exists [], []. by split_and!.
  - rewrite py_max_cons. destruct (Qle_bool (key c) (key first)) eqn:E.
    + destruct (IH first) as (before & after & Heq & Hb & Ha).
      destruct before as [|b before]; cbn in Heq; injection Heq as Hf Hr.
      * exists [], (c :: rest). rewrite <- Hf. subst after.
        split_and!; [done|constructor|]. rewrite <- Hf in Ha.
        constructor; [by apply Qle_bool_iff|exact Ha].
      * subst b. exists (first :: c :: before), after.
        split_and!; [cbn; by do 2 f_equal| |done].
        inversion_clear Hb as [|?? Hfirst Hrest].
        constructor; [done|]. constructor; [|done].
        eapply Qle_lt_trans; [|exact Hfirst]. by apply Qle_bool_iff.
    + destruct (IH c) as (before & after & Heq & Hb & Ha).
      exists (first :: before), after. split_and!; [by rewrite Heq| |done].
      constructor; [|done].
      assert (key first < key c)%Q as Hlt.
      { apply Qnot_le_lt. intros Hle%Qle_bool_iff. congruence. }
      eapply Qlt_le_trans; [exact Hlt|]. apply (py_max_ge_first key c rest).
Qed.

(** X15. Whatever the library returns, the result of [crop_panorama] on a
    rectangular image is a window of it: a run of consecutive rows, each cut
    to the same run of consecutive columns. No pixel is made up and no index
    is out of range. *)
Theorem crop_is_window (panorama : Image) :
  rectangular panorama ->
  ∃ top rows left cols : nat,
    crop_panorama panorama
      = (fun row : list Pixel => take cols (drop left row))
          <$> take rows (drop top panorama).
Proof.
  intros Hrect. rewrite crop_panorama_unfold.
  assert (Hwin : ∀ r0 r1 c0 c1, ∃ top rows left cols : nat,
            slice2 r0 r1 c0 c1 panorama
            = (fun row : list Pixel => take cols (drop left row))
                <$> take rows (drop top panorama)).
  { intros r0 r1 c0 c1. unfold slice2, slice at 2.
    eexists _, _, (Z.to_nat (clamp (width panorama) c0)),
      (Z.to_nat (clamp (width panorama) c1 - clamp (width panorama) c0)).
    apply Forall_fmap_ext, Forall_take, Forall_drop.
    eapply Forall_impl; [exact Hrect|]. intros row Hrow. cbn in Hrow.
    unfold slice. by rewrite Hrow. }
  destruct (contours_of panorama) as [|c cs].
  - destruct (Hwin 0 (height panorama) 0 (width panorama)) as (t & r & l & k & E).
    exists t, r, l, k. by rewrite <- E, slice2_all.
  - destruct (boundingRect _) as [[[x y] w] h]. apply Hwin.
Qed.

End Stitching.

(** * The handler's properties on concrete requests *)

Import Requests.

Lemma model_secure_filename_plain s :
  contains "/" (Model.secure_filename s) = false.
Proof.
  induction s as [|a s IH]; [done|]. cbn.
  destruct (Model.safe_char a) eqn:Hsafe.
  - cbn. destruct (Ascii.eqb_spec a "/") as [->|]; [done|exact IH].
  - by destruct (Ascii.eqb a " ").
Qed.


Lemma index_too_few_decodable_witness :
  let served := index Model.secure_filename (POST (Some one_decodable)) (fresh 0) in
  served.1 = Template (Some "Need at least two images to stitch") None ∧
  files served.2 = saved_files Model.secure_filename one_decodable (files (fresh 0)) ∧
  ∃ reads,
    calls served.2 = (reads ++ calls (fresh 0))%list ∧
    Forall (fun c => ∃ path, c = CallImread path) reads.
Proof.
  apply (index_too_few_decodable Model.secure_filename one_decodable (fresh 0));
    evaluated.
Defined.

Lemma index_stores_artifact_witness :
  let fs := saved_files Model.secure_filename stitchable (files (fresh 5)) in
  let images := loaded fs (saved_paths Model.secure_filename stitchable) in
  let img := crop_panorama (stitch Stitcher_PANORAMA images).2 in
  let served := index Model.secure_filename (POST (Some stitchable)) (fresh 5) in
  served.1 = Template None (Some (artifact_url (now (fresh 5)))) ∧
  files served.2
    = <[artifact_path (now (fresh 5))
        := imencode (artifact_path (now (fresh 5))) img]> fs ∧
  List.filter is_imwrite (calls served.2)
    = CallImwrite (artifact_path (now (fresh 5))) img
        :: List.filter is_imwrite (calls (fresh 5)).
Proof.
  apply (index_stores_artifact Model.secure_filename stitchable (fresh 5));
    evaluated.
Defined.

Lemma stored_artifact_is_served_witness :
  let fs := saved_files Model.secure_filename stitchable (files (fresh 5)) in
  let images := loaded fs (saved_paths Model.secure_filename stitchable) in
  let img := crop_panorama (stitch Stitcher_PANORAMA images).2 in
  let served := index Model.secure_filename (POST (Some stitchable)) (fresh 5) in
  served.1 = Template None (Some ("/stitched_image/" +:+ artifact_name (now (fresh 5)))) ∧
  (@get_stitched_image at_cwd (artifact_name (now (fresh 5))) served.2).1
    = SendFile (imencode (artifact_path (now (fresh 5))) img) "image/jpeg".
Proof.
  apply (@stored_artifact_is_served Model.cv2 at_cwd Model.secure_filename
           stitchable (fresh 5)); evaluated.
Defined.

Lemma stored_artifact_not_served_witness :
  let served := index Model.secure_filename (POST (Some stitchable)) (fresh 5) in
  served.1 = Template None (Some ("/stitched_image/" +:+ artifact_name (now (fresh 5)))) ∧
  is_Some (files served.2 !! artifact_path (now (fresh 5))) ∧
  (@get_stitched_image started_elsewhere (artifact_name (now (fresh 5))) served.2).1
    = NotFound.
Proof.
  apply (@stored_artifact_not_served Model.cv2 started_elsewhere
           Model.secure_filename stitchable (fresh 5) ∅); evaluated.
Defined.

Lemma same_second_overwrites_witness :
  let w2 := (index Model.secure_filename (POST (Some stitchable)) (fresh 5)).2 in
  let images :=
    loaded (saved_files Model.secure_filename stitchable_too (files w2))
           (saved_paths Model.secure_filename stitchable_too) in
  let img := crop_panorama (stitch Stitcher_PANORAMA images).2 in
  "/stitched_image/stitched_5.jpg" = "/stitched_image/stitched_5.jpg" ∧
  files (index Model.secure_filename (POST (Some stitchable_too)) w2).2
    !! artifact_path (now (fresh 5))
    = Some (imencode (artifact_path (now (fresh 5))) img).
Proof.
  intros w2.
  apply (same_second_overwrites Model.secure_filename stitchable stitchable_too
           (fresh 5) w2); evaluated.
Defined.

Lemma colliding_uploads_witness :
  let first := mkFile "a b.png" (raw (uniform 2 2 9)) in
  let second := mkFile "a_b.png" (raw (uniform 2 2 7)) in
  let saved := save_uploads Model.secure_filename [first; second] [] (fresh 0) in
  (read_images saved.1 saved.2).1
    = Some <$> omap (fun _ : FileStorage => imdecode (content second)) [first; second].
Proof.
  intros first second.
  apply (colliding_uploads Model.secure_filename first second (fresh 0)); evaluated.
Defined.

Lemma uploads_leave_artifacts_witness :
  (@get_stitched_image at_cwd "stitched_5.jpg"
     (index Model.secure_filename (POST (Some stitchable)) served_later).2).1
  = (@get_stitched_image at_cwd "stitched_5.jpg" served_later).1.
Proof.
  apply (@uploads_leave_artifacts Model.cv2 at_cwd Model.secure_filename
           (POST (Some stitchable)) served_later "stitched_5.jpg").
  - apply model_secure_filename_plain.
  - evaluated.
  - discriminate.
  - evaluated.
Defined.

Lemma stitcher_called_once_witness :
  let paths := ["uploads/a.png"; "uploads/b.png"] in
  List.filter is_stitch (calls (stitch_images paths mismatched).2)
    = CallStitch (loaded (files mismatched) paths)
        :: List.filter is_stitch (calls mismatched).
Proof.
  intros paths. apply (stitcher_called_once paths mismatched). evaluated.
Defined.

Lemma stitch_images_success_witness :
  let paths := ["uploads/a.png"; "uploads/b.png"] in
  let images := loaded (files two_good) paths in
  (stitch_images paths two_good).1
    = (Some (crop_panorama (stitch Stitcher_PANORAMA images).2), None) ∧
  files (stitch_images paths two_good).2 = files two_good.
Proof.
  intros paths. apply (stitch_images_success paths two_good); evaluated.
Defined.

Lemma crop_is_window_witness :
  ∃ top rows left cols : nat,
    crop_panorama dark_bright
      = (fun row : list Pixel => take cols (drop left row))
          <$> take rows (drop top dark_bright).
Proof. apply (crop_is_window dark_bright). repeat constructor. Defined.

(** The requests above, evaluated. *)
Example handler_samples :
  (index Model.secure_filename (POST None) (fresh 0)).1
    = Template (Some "No images uploaded") None ∧
  (index Model.secure_filename GET (fresh 0)).1 = Template None None ∧
  (index Model.secure_filename (POST (Some stitchable)) (fresh 5)).1
    = Template None (Some "/stitched_image/stitched_5.jpg") ∧
  (save_uploads Model.secure_filename same_name [] (fresh 0)).1
    = ["uploads/a_b.png"; "uploads/a_b.png"] ∧
  (index Model.secure_filename (POST (Some same_name)) (fresh 7)).1
    = Template None (Some "/stitched_image/stitched_7.jpg").
Proof. by vm_compute. Qed.
